(** * Parameter translators of papermill: a shallow embedding

    This development follows [papermill/translators.py]: the registry
    [PapermillTranslators], the base class [Translator] and its seven
    language subclasses, and [translate_parameters].

    Conventions of the embedding.
    - A Python [str] is a Rocq [string]; every character stands for the code
      point of the same number, so the texts covered are those whose code
      points are below 256.
    - A method that can raise returns a [result]; exceptions are values of
      [exn] carrying their message.
    - A class method receives the class it is called on as [cls], so that
      [cls.translate], [cls.comment], ... reach the overriding definitions. *)

From Stdlib Require Import ZArith Ascii String DecimalString.
From stdpp Require Import base gmap strings list.

Set Warnings "-register-all,-clear-no-such-hyp".
Open Scope string_scope.
#[local] Arguments String.append !_ _ / : simpl nomatch.

(** ** Characters and Python string primitives *)

Module Py.

Definition dquote : ascii := "034"%char.
Definition squote : ascii := "039"%char.
Definition backslash : ascii := "092"%char.
Definition newline : ascii := "010"%char.

Definition chr (c : ascii) : string := String c EmptyString.

Definition nl : string := chr newline.

(** [sep.join(l)] *)
Fixpoint join (sep : string) (l : list string) : string :=
  match l with
  | [] => ""
  | [x] => x
  | x :: rest => x +:+ sep +:+ join sep rest
  end.

(** [s.replace(c, by)] for a one-character pattern [c]. *)
Fixpoint replace (c : ascii) (by_ : string) (s : string) : string :=
  match s with
  | EmptyString => ""
  | String a rest =>
      (if Ascii.eqb a c then by_ else chr a) +:+ replace c by_ rest
  end.

(** [str.isspace] on one character (code points below 256). *)
Definition isspace (c : ascii) : bool :=
  let n := N_of_ascii c in
  ((9 <=? n) && (n <=? 13) || (28 <=? n) && (n <=? 32)
   || (n =? 133) || (n =? 160))%N.

Fixpoint lstrip (s : string) : string :=
  match s with
  | EmptyString => ""
  | String a rest => if isspace a then lstrip rest else s
  end.

Fixpoint rstrip (s : string) : string :=
  match s with
  | EmptyString => ""
  | String a rest =>
      match rstrip rest with
      | EmptyString => if isspace a then "" else chr a
      | kept => String a kept
      end
  end.

(** [s.strip()] *)
Definition strip (s : string) : string := rstrip (lstrip s).

(** [s.startswith(p)] *)
Fixpoint startswith (p s : string) : bool :=
  match p, s with
  | EmptyString, _ => true
  | String _ _, EmptyString => false
  | String a p', String b s' => Ascii.eqb a b && startswith p' s'
  end.

Definition hexdigit (n : N) : ascii :=
  ascii_of_N (if (n <? 10)%N then 48 + n else 87 + n).

(** The [unicode_escape] codec on one code point below 256: printable ASCII
    is copied, the backslash is doubled, tab, line feed and carriage return
    get their letter, every other character becomes [\xhh] in lower case. *)
Definition unicode_escape_char (c : ascii) : string :=
  let n := N_of_ascii c in
  if ((32 <=? n) && (n <? 127))%N then
    if Ascii.eqb c backslash then String backslash (chr backslash) else chr c
  else if (n =? 9)%N then String backslash "t"
  else if (n =? 10)%N then String backslash "n"
  else if (n =? 13)%N then String backslash "r"
  else String backslash
         (String "x" (String (hexdigit (n / 16)) (chr (hexdigit (n mod 16))))).

(** [s.encode('unicode_escape').decode('utf-8')]: the codec yields ASCII
    bytes only, which decode to the same characters. *)
Fixpoint unicode_escape (s : string) : string :=
  match s with
  | EmptyString => ""
  | String a rest => unicode_escape_char a +:+ unicode_escape rest
  end.

(** [str(n)] of an [int]. *)
Definition str_int (z : Z) : string := NilZero.string_of_int (Z.to_int z).

(** [str(b)] of a [bool]. *)
Definition str_bool (b : bool) : string := if b then "True" else "False".

End Py.

(** ** Exceptions and results *)

(** [InvalidInput] is the exception of the formatter used by the Python
    class, for a block it cannot parse. *)
Inductive exn : Type :=
  | PapermillException (msg : string)
  | NotImplementedError (msg : string)
  | InvalidInput (msg : string).

Inductive result (A : Type) : Type :=
  | Ok (a : A)
  | Raise (e : exn).
Arguments Ok {A} a.
Arguments Raise {A} e.

Definition bind {A B : Type} (m : result A) (k : A -> result B) : result B :=
  match m with
  | Ok a => k a
  | Raise e => Raise e
  end.

Notation "x <- m ;; k" := (bind m (fun x => k))
  (at level 100, m at next level, right associativity).

(** A list comprehension whose element expression can raise: elements are
    evaluated left to right and the first exception ends the evaluation. *)
Definition mapM {A B : Type} (f : A -> result B) : list A -> result (list B) :=
  fix go (l : list A) : result (list B) :=
    match l with
    | [] => Ok []
    | a :: rest => b <- f a ;; bs <- go rest ;; Ok (b :: bs)
    end.

(** ** Values *)

(** A [float] is kept as the text [str] gives for it: formatting is all the
    translators do with one. *)
Definition PyFloat : Type := string.

(** The instances of [int]: [bool] is a subclass of [int], so [True] and
    [False] are accepted wherever an integer is. *)
Inductive PyInt : Type :=
  | IntObj (z : Z)
  | BoolObj (b : bool).

Definition int_value (i : PyInt) : Z :=
  match i with
  | IntObj z => z
  | BoolObj b => if b then 1 else 0
  end.

(** The argument of the string helpers: a [str], or an object of another
    type, of which only the text [str] gives for it is used. *)
Inductive PyObj : Type :=
  | StrObj (s : string)
  | NonStr (text : string).

(** A parameter value.  [VOther text] is an object of a type other than
    [NoneType], [str], [bool], [int], [float], [dict] and [list] (a tuple, a
    date, ...) whose [str] is [text].  The items of a [dict] are kept in
    iteration order, with [str] keys. *)
Inductive Value : Type :=
  | VNone
  | VStr (s : string)
  | VBool (b : bool)
  | VInt (z : Z)
  | VFloat (f : PyFloat)
  | VDict (items : list (string * Value))
  | VList (elems : list Value)
  | VOther (text : string).

(** The types the dispatcher tests for. *)
Inductive PyType : Type :=
  | NoneType | str_ | bool_ | int_ | float_ | dict_ | list_ | object_.

Definition type_of (val : Value) : PyType :=
  match val with
  | VNone => NoneType
  | VStr _ => str_
  | VBool _ => bool_
  | VInt _ => int_
  | VFloat _ => float_
  | VDict _ => dict_
  | VList _ => list_
  | VOther _ => object_
  end.

Definition PyType_eqb (a b : PyType) : bool :=
  match a, b with
  | NoneType, NoneType | str_, str_ | bool_, bool_ | int_, int_
  | float_, float_ | dict_, dict_ | list_, list_ | object_, object_ => true
  | _, _ => false
  end.

(** [issubclass(a, b)] among these types: besides every type being a
    subclass of itself and of [object], [bool] is a subclass of [int]. *)
Definition issubclass (a b : PyType) : bool :=
  PyType_eqb a b || PyType_eqb b object_
  || (PyType_eqb a bool_ && PyType_eqb b int_).

Definition isinstance (val : Value) (t : PyType) : bool :=
  issubclass (type_of val) t.

(** ** The translator classes *)

Inductive Variant : Type :=
  | Translator
  | PythonTranslator
  | RTranslator
  | ScalaTranslator
  | JuliaTranslator
  | MatlabTranslator
  | CSharpTranslator
  | FSharpTranslator.

#[global] Instance Variant_eq_dec : EqDecision Variant.
Proof. solve_decision. Defined.

(** [f'{cls}'] *)
Definition class_repr (cls : Variant) : string :=
  "<class 'papermill.translators." +:+
  match cls with
  | Translator => "Translator"
  | PythonTranslator => "PythonTranslator"
  | RTranslator => "RTranslator"
  | ScalaTranslator => "ScalaTranslator"
  | JuliaTranslator => "JuliaTranslator"
  | MatlabTranslator => "MatlabTranslator"
  | CSharpTranslator => "CSharpTranslator"
  | FSharpTranslator => "FSharpTranslator"
  end +:+ "'>".

(** ** Methods of [Translator] and their overrides

    Each method is one definition by cases on the class it is called on; a
    class that does not override a method shares the case of [Translator]. *)

(** [str(val)], as used by the f-strings. *)
Class Str (A : Type) : Type := str : A -> string.
#[global] Instance Str_None : Str unit := fun _ => "None".
#[global] Instance Str_bool : Str bool := Py.str_bool.
#[global] Instance Str_int : Str Z := Py.str_int.
#[global] Instance Str_float : Str PyFloat := fun f => f.
#[global] Instance Str_PyInt : Str PyInt := fun i =>
  match i with
  | IntObj z => str z
  | BoolObj b => str b
  end.

Definition translate_raw_str {A : Type} `{Str A} (val : A) : string :=
  str val.

Definition translate_escaped_str (cls : Variant) (str_val : PyObj) : string :=
  let str_val :=
    match str_val with
    | StrObj s =>
        let s := Py.unicode_escape s in
        match cls with
        | MatlabTranslator =>
            Py.replace Py.dquote (String Py.dquote (Py.chr Py.dquote)) s
        | _ =>
            Py.replace Py.dquote (String Py.backslash (Py.chr Py.dquote)) s
        end
    | NonStr text => text
    end in
  Py.chr Py.dquote +:+ str_val +:+ Py.chr Py.dquote.

Definition MatlabTranslator__translate_char_array (str_val : PyObj) : string :=
  let str_val :=
    match str_val with
    | StrObj s =>
        Py.replace Py.squote (String Py.squote (Py.chr Py.squote))
          (Py.unicode_escape s)
    | NonStr text => text
    end in
  Py.chr Py.squote +:+ str_val +:+ Py.chr Py.squote.

Definition translate_str (cls : Variant) (val : PyObj) : string :=
  translate_escaped_str cls val.

Definition translate_none (cls : Variant) (val : unit) : result string :=
  match cls with
  | RTranslator => Ok "NULL"
  | JuliaTranslator => Ok "nothing"
  | MatlabTranslator => Ok "NaN"
  | CSharpTranslator =>
      Raise (NotImplementedError "Option type not implemented for C#.")
  | FSharpTranslator => Ok "None"
  | Translator | PythonTranslator | ScalaTranslator =>
      Ok (translate_raw_str val)
  end.

Definition translate_int (cls : Variant) (val : PyInt) : string :=
  match cls with
  | ScalaTranslator | CSharpTranslator | FSharpTranslator =>
      let strval := translate_raw_str val in
      if ((int_value val >? 2147483647) || (int_value val <? -2147483648))%Z
      then strval +:+ "L" else strval
  | Translator | PythonTranslator | RTranslator | JuliaTranslator
  | MatlabTranslator =>
      translate_raw_str val
  end.

Definition translate_float (cls : Variant) (val : PyFloat) : string :=
  translate_raw_str val.

Definition translate_bool (cls : Variant) (val : bool) : string :=
  match cls with
  | PythonTranslator => translate_raw_str val
  | RTranslator => if val then "TRUE" else "FALSE"
  | CSharpTranslator | FSharpTranslator => if val then "true" else "false"
  | Translator | ScalaTranslator | JuliaTranslator | MatlabTranslator =>
      if val then "true" else "false"
  end.

(** [translate_dict] and [translate_list] call back [cls.translate] on the
    values they hold: [translate] is that call. *)
Definition translate_dict (cls : Variant) (translate : Value -> result string)
    (val : list (string * Value)) : result string :=
  match cls with
  | Translator =>
      Raise (NotImplementedError
               ("dict type translation not implemented for " +:+ class_repr cls))
  | PythonTranslator =>
      escaped <- mapM (fun '(k, v) =>
                   tv <- translate v ;;
                   Ok (translate_str cls (StrObj k) +:+ ": " +:+ tv)) val ;;
      Ok ("{" +:+ Py.join ", " escaped +:+ "}")
  | RTranslator =>
      escaped <- mapM (fun '(k, v) =>
                   tv <- translate v ;;
                   Ok (translate_str cls (StrObj k) +:+ " = " +:+ tv)) val ;;
      Ok ("list(" +:+ Py.join ", " escaped +:+ ")")
  | ScalaTranslator =>
      escaped <- mapM (fun '(k, v) =>
                   tv <- translate v ;;
                   Ok (translate_str cls (StrObj k) +:+ " -> " +:+ tv)) val ;;
      Ok ("Map(" +:+ Py.join ", " escaped +:+ ")")
  | JuliaTranslator =>
      escaped <- mapM (fun '(k, v) =>
                   tv <- translate v ;;
                   Ok (translate_str cls (StrObj k) +:+ " => " +:+ tv)) val ;;
      Ok ("Dict(" +:+ Py.join ", " escaped +:+ ")")
  | MatlabTranslator =>
      let keys :=
        Py.join ", "
          (map (fun '(k, v) => MatlabTranslator__translate_char_array (StrObj k))
             val) in
      vals <- mapM (fun '(k, v) => translate v) val ;;
      Ok ("containers.Map({" +:+ keys +:+ "}, {" +:+ Py.join ", " vals +:+ "})")
  | CSharpTranslator =>
      kvps <- mapM (fun '(k, v) =>
                tv <- translate v ;;
                Ok ("{ " +:+ translate_str cls (StrObj k) +:+ " , " +:+ tv
                    +:+ " }")) val ;;
      Ok ("new Dictionary<string,Object>{ " +:+ Py.join ", " kvps +:+ " }")
  | FSharpTranslator =>
      tuples <- mapM (fun '(k, v) =>
                  tv <- translate v ;;
                  Ok ("(" +:+ translate_str cls (StrObj k) +:+ ", " +:+ tv
                      +:+ " :> IComparable)")) val ;;
      Ok ("[ " +:+ Py.join "; " tuples +:+ " ] |> Map.ofList")
  end.

Definition translate_list (cls : Variant) (translate : Value -> result string)
    (val : list Value) : result string :=
  match cls with
  | Translator =>
      Raise (NotImplementedError
               ("list type translation not implemented for " +:+ class_repr cls))
  | PythonTranslator | JuliaTranslator =>
      escaped <- mapM translate val ;;
      Ok ("[" +:+ Py.join ", " escaped +:+ "]")
  | RTranslator =>
      escaped <- mapM translate val ;;
      Ok ("list(" +:+ Py.join ", " escaped +:+ ")")
  | ScalaTranslator =>
      escaped <- mapM translate val ;;
      Ok ("Seq(" +:+ Py.join ", " escaped +:+ ")")
  | MatlabTranslator =>
      escaped <- mapM translate val ;;
      Ok ("{" +:+ Py.join ", " escaped +:+ "}")
  | CSharpTranslator =>
      escaped <- mapM translate val ;;
      Ok ("new [] { " +:+ Py.join ", " escaped +:+ " }")
  | FSharpTranslator =>
      escaped <- mapM translate val ;;
      Ok ("[ " +:+ Py.join "; " escaped +:+ " ]")
  end.

(** [Translator.translate], by cases on the value.  [dispatch] below keeps
    the tests of the source in their order, where a [bool] also passes the
    test for [int]; [translate_dispatch] shows that [translate] makes the
    call [dispatch] selects. *)
Fixpoint translate (cls : Variant) (val : Value) : result string :=
  match val with
  | VNone => translate_none cls tt
  | VStr s => Ok (translate_str cls (StrObj s))
  | VBool b => Ok (translate_bool cls b)
  | VInt z => Ok (translate_int cls (IntObj z))
  | VFloat f => Ok (translate_float cls f)
  | VDict items => translate_dict cls (translate cls) items
  | VList elems => translate_list cls (translate cls) elems
  | VOther text => Ok (translate_escaped_str cls (NonStr text))
  end.

(** The chain of tests of [Translator.translate], in the order of the source:
    which method the value is handed to. *)
Inductive Branch : Type :=
  | to_none | to_str | to_bool | to_int | to_float | to_dict | to_list
  | to_escaped_str.

Definition dispatch (val : Value) : Branch :=
  if PyType_eqb (type_of val) NoneType then to_none
  else if isinstance val str_ then to_str
  else if isinstance val bool_ then to_bool
  else if isinstance val int_ then to_int
  else if isinstance val float_ then to_float
  else if isinstance val dict_ then to_dict
  else if isinstance val list_ then to_list
  else to_escaped_str.

(** The call a branch makes on a value it can be reached with.  The integer
    branch can be reached with a [bool], which is an instance of [int]. *)
Definition call (cls : Variant) (b : Branch) (val : Value)
    : option (result string) :=
  match b, val with
  | to_none, VNone => Some (translate_none cls tt)
  | to_str, VStr s => Some (Ok (translate_str cls (StrObj s)))
  | to_bool, VBool v => Some (Ok (translate_bool cls v))
  | to_int, VInt z => Some (Ok (translate_int cls (IntObj z)))
  | to_int, VBool v => Some (Ok (translate_int cls (BoolObj v)))
  | to_float, VFloat f => Some (Ok (translate_float cls f))
  | to_dict, VDict items => Some (translate_dict cls (translate cls) items)
  | to_list, VList elems => Some (translate_list cls (translate cls) elems)
  | to_escaped_str, VOther text =>
      Some (Ok (translate_escaped_str cls (NonStr text)))
  | _, _ => None
  end.

Definition comment (cls : Variant) (cmt_str : string) : result string :=
  match cls with
  | Translator =>
      Raise (NotImplementedError
               ("comment translation not implemented for " +:+ class_repr cls))
  | PythonTranslator | RTranslator | JuliaTranslator =>
      Ok (Py.strip ("# " +:+ cmt_str))
  | ScalaTranslator | CSharpTranslator =>
      Ok (Py.strip ("// " +:+ cmt_str))
  | MatlabTranslator =>
      Ok (Py.strip ("% " +:+ cmt_str))
  | FSharpTranslator =>
      Ok (Py.strip ("(" +:+ "* " +:+ cmt_str +:+ " *" +:+ ")"))
  end.

(** The loop of [RTranslator.assign]:
    [while name.startswith("_"): name = name[1:]]. *)
Fixpoint drop_leading_underscores (name : string) : string :=
  match name with
  | String c rest =>
      if Py.startswith "_" name then drop_leading_underscores rest else name
  | EmptyString => name
  end.

Definition assign (cls : Variant) (name str_val : string) : string :=
  match cls with
  | RTranslator =>
      let name := drop_leading_underscores name in
      name +:+ " = " +:+ str_val
  | ScalaTranslator => "val " +:+ name +:+ " = " +:+ str_val
  | CSharpTranslator => "var " +:+ name +:+ " = " +:+ str_val +:+ ";"
  | FSharpTranslator => "let " +:+ name +:+ " = " +:+ str_val
  | Translator | PythonTranslator | JuliaTranslator | MatlabTranslator =>
      name +:+ " = " +:+ str_val
  end.

(** The [for] loop of [codify]: [content] is extended by one statement per
    parameter, each followed by [ending]. *)
Fixpoint codify_loop (cls : Variant) (ending : string)
    (items : list (string * Value)) (content : string) : result string :=
  match items with
  | [] => Ok content
  | (name, val) :: rest =>
      tv <- translate cls val ;;
      codify_loop cls ending rest
        (content +:+ assign cls name tv +:+ ending)
  end.

(** [Translator.codify], called on [cls]. *)
Definition Translator_codify (cls : Variant)
    (parameters : list (string * Value)) : result string :=
  c <- comment cls "Parameters" ;;
  codify_loop cls Py.nl parameters (c +:+ Py.nl).

Definition MatlabTranslator_codify (cls : Variant)
    (parameters : list (string * Value)) : result string :=
  c <- comment cls "Parameters" ;;
  codify_loop cls (";" +:+ Py.nl) parameters (c +:+ Py.nl).

(** [PythonTranslator.codify] hands the block of [Translator.codify] to
    [black.format_str], the formatter of a library outside the package; it is
    the argument [format_str].  The test on the interpreter version that
    guards this step holds wherever the module loads, since its f-strings
    need the same version. *)
Definition PythonTranslator_codify (format_str : string -> result string)
    (cls : Variant) (parameters : list (string * Value)) : result string :=
  content <- Translator_codify cls parameters ;;
  format_str content.

Definition codify (format_str : string -> result string) (cls : Variant)
    (parameters : list (string * Value)) : result string :=
  match cls with
  | PythonTranslator => PythonTranslator_codify format_str cls parameters
  | MatlabTranslator => MatlabTranslator_codify cls parameters
  | Translator | RTranslator | ScalaTranslator | JuliaTranslator
  | CSharpTranslator | FSharpTranslator =>
      Translator_codify cls parameters
  end.

(** A formatter that leaves the block as it is. *)
Definition no_format : string -> result string := Ok.

(** ** The registry *)

Section Registry.

Context {A : Type}.

(** The registry object: its only attribute is the [dict] [_translators].
    [register] mutates it; here it returns the registry after the call. *)
Record PapermillTranslators : Type := { _translators : gmap string A }.

Definition init : PapermillTranslators := {| _translators := ∅ |}.

Definition register (self : PapermillTranslators) (language : string)
    (translator : A) : PapermillTranslators :=
  {| _translators := <[language := translator]> (_translators self) |}.

Definition find_translator (self : PapermillTranslators)
    (kernel_name language : string) : result A :=
  match _translators self !! kernel_name with
  | Some translator => Ok translator
  | None =>
      match _translators self !! language with
      | Some translator => Ok translator
      | None =>
          Raise (PapermillException
                   ("No parameter translator functions specified for kernel '"
                    +:+ kernel_name +:+ "' or language '" +:+ language +:+ "'"))
      end
  end.

End Registry.

Arguments PapermillTranslators A : clear implicits.

Definition papermill_translators : PapermillTranslators Variant :=
  let r := init in
  let r := register r "python" PythonTranslator in
  let r := register r "R" RTranslator in
  let r := register r "scala" ScalaTranslator in
  let r := register r "julia" JuliaTranslator in
  let r := register r "matlab" MatlabTranslator in
  let r := register r ".net-csharp" CSharpTranslator in
  let r := register r ".net-fsharp" FSharpTranslator in
  r.

Definition translate_parameters (format_str : string -> result string)
    (kernel_name language : string) (parameters : list (string * Value))
    : result string :=
  cls <- find_translator papermill_translators kernel_name language ;;
  codify format_str cls parameters.

(** ** Notions used to state the properties *)

(** [needle] occurs in [text]. *)
Definition contains (needle text : string) : Prop :=
  exists before after, text = before +:+ needle +:+ after.

Definition ends_with_newline (text : string) : Prop :=
  exists body, text = body +:+ Py.nl.

(** The statements of a block, one per parameter, in the order of the
    parameters. *)
Definition statements (cls : Variant) (parameters : list (string * Value))
    : result (list string) :=
  mapM (fun '(name, val) =>
          tv <- translate cls val ;; Ok (assign cls name tv)) parameters.

(** Lines put one after the other, each followed by [ending]. *)
Definition terminated (ending : string) (lines : list string) : string :=
  fold_right (fun line block => line +:+ ending +:+ block) "" lines.

(** What follows each statement, and what is done to the finished block. *)
Definition line_ending (cls : Variant) : string :=
  match cls with
  | MatlabTranslator => ";" +:+ Py.nl
  | _ => Py.nl
  end.

Definition finish (format_str : string -> result string) (cls : Variant)
    : string -> result string :=
  match cls with
  | PythonTranslator => format_str
  | _ => Ok
  end.

(** The block read literally off the description of [codify]: the comment
    line, then every statement followed by a newline, returned as it is. *)
Definition codify_described (format_str : string -> result string)
    (cls : Variant) (parameters : list (string * Value)) : Prop :=
  exists c lines,
    comment cls "Parameters" = Ok c /\
    statements cls parameters = Ok lines /\
    codify format_str cls parameters
    = Ok (c +:+ Py.nl +:+ terminated Py.nl lines).

(** The escaped-string form of a text: [translate_escaped_str] on that text
    as a [str]. *)
Definition escaped_form (cls : Variant) (text : string) : string :=
  translate_escaped_str cls (StrObj text).

(** Texts in which [translate_escaped_str] finds nothing to escape:
    printable ASCII without backslash and double quote. *)
Definition plain_char (c : ascii) : bool :=
  let n := N_of_ascii c in
  ((32 <=? n) && (n <? 127))%N
  && negb (Ascii.eqb c Py.backslash) && negb (Ascii.eqb c Py.dquote).

Fixpoint plain (text : string) : bool :=
  match text with
  | EmptyString => true
  | String c rest => plain_char c && plain rest
  end.

(** A text between double quotes, nothing escaped. *)
Definition quoted (text : string) : string :=
  Py.chr Py.dquote +:+ text +:+ Py.chr Py.dquote.

(** [n] underscores. *)
Fixpoint underscores (n : nat) : string :=
  match n with
  | O => ""
  | S m => String "_" (underscores m)
  end.

(** A [None] occurs in the value, at any depth. *)
Fixpoint has_none (val : Value) : bool :=
  match val with
  | VNone => true
  | VDict items => existsb (fun '(k, v) => has_none v) items
  | VList elems => existsb has_none elems
  | _ => false
  end.

(** The text [str] gives for the one-element tuple holding the string
    [a], a double quote, [b]. *)
Definition tuple_text : string := "('a" +:+ Py.chr Py.dquote +:+ "b',)".

Definition option_unsupported : exn :=
  NotImplementedError "Option type not implemented for C#.".

(** ** Notions for further properties of the translators *)

(** What [translate_escaped_str] puts between the quotes for a [str]. *)
Definition escaped_body (cls : Variant) (s : string) : string :=
  match cls with
  | MatlabTranslator =>
      Py.replace Py.dquote (String Py.dquote (Py.chr Py.dquote))
        (Py.unicode_escape s)
  | _ =>
      Py.replace Py.dquote (String Py.backslash (Py.chr Py.dquote))
        (Py.unicode_escape s)
  end.

Definition hexval (c : ascii) : N :=
  let n := N_of_ascii c in
  (if n <? 58 then n - 48 else n - 87)%N.

(** *** Strings of any code points

    Elsewhere a [str] is a [string], which holds code points below 256.
    For the escaping itself a [str] is taken here as the list of its code
    points, all below 0x110000, and the codec has its branches for the
    code points from 256 on as well. *)

Definition is_str (s : list N) : Prop :=
  Forall (fun ch => (ch < 1114112)%N) s.


(** The hexadecimal digit of [ch] at the place of weight [weight]. *)
Definition hex_at (ch weight : N) : ascii :=
  Py.hexdigit ((ch / weight) mod 16).

(** The [unicode_escape] codec on one code point: below 256 as
    [Py.unicode_escape_char] has it, below 0x10000 a backslash, [u] and
    four digits, from there on a backslash, [U], two zeros and six
    digits. *)
Definition unicode_escape_point (ch : N) : string :=
  if (ch <? 256)%N then Py.unicode_escape_char (ascii_of_N ch)
  else if (ch <? 65536)%N then
    String Py.backslash
      (String "u"
         (String (hex_at ch 4096)
            (String (hex_at ch 256)
               (String (hex_at ch 16) (Py.chr (hex_at ch 1))))))
  else
    String Py.backslash
      (String "U"
         (String "0"
            (String "0"
               (String (hex_at ch 1048576)
                  (String (hex_at ch 65536)
                     (String (hex_at ch 4096)
                        (String (hex_at ch 256)
                           (String (hex_at ch 16)
                              (Py.chr (hex_at ch 1)))))))))).

Fixpoint unicode_escape_points (s : list N) : string :=
  match s with
  | [] => ""
  | ch :: rest => unicode_escape_point ch +:+ unicode_escape_points rest
  end.

(** [translate_escaped_str] on a [str] given by its code points: the
    codec, then the replacement of the double quotes, then the quotes
    around. *)
Definition escaped_body_points (cls : Variant) (s : list N) : string :=
  match cls with
  | MatlabTranslator =>
      Py.replace Py.dquote (String Py.dquote (Py.chr Py.dquote))
        (unicode_escape_points s)
  | _ =>
      Py.replace Py.dquote (String Py.backslash (Py.chr Py.dquote))
        (unicode_escape_points s)
  end.

Definition translate_escaped_str_points (cls : Variant) (s : list N)
    : string :=
  Py.chr Py.dquote +:+ escaped_body_points cls s +:+ Py.chr Py.dquote.

(** A reader of escaped bodies, used to show that nothing is lost by the
    escaping: it undoes the backslash sequences of the codec, the escaped
    double quote and the doubled double quote. *)
Fixpoint unescape_points (s : string) : list N :=
  match s with
  | EmptyString => []
  | String c rest =>
      if Ascii.eqb c Py.backslash then
        match rest with
        | EmptyString => [N_of_ascii c]
        | String d rest' =>
            if Ascii.eqb d "x" then
              match rest' with
              | String h1 (String h2 r) =>
                  (16 * hexval h1 + hexval h2)%N :: unescape_points r
              | _ => []
              end
            else if Ascii.eqb d "u" then
              match rest' with
              | String h1 (String h2 (String h3 (String h4 r))) =>
                  (4096 * hexval h1
                   + (256 * hexval h2 + (16 * hexval h3 + hexval h4)))%N
                  :: unescape_points r
              | _ => []
              end
            else if Ascii.eqb d "U" then
              match rest' with
              | String _ (String _
                  (String h1 (String h2 (String h3
                     (String h4 (String h5 (String h6 r))))))) =>
                  (1048576 * hexval h1
                   + (65536 * hexval h2
                      + (4096 * hexval h3
                         + (256 * hexval h4
                            + (16 * hexval h5 + hexval h6)))))%N
                  :: unescape_points r
              | _ => []
              end
            else
              (if Ascii.eqb d "t" then 9
               else if Ascii.eqb d "n" then 10
               else if Ascii.eqb d "r" then 13
               else N_of_ascii d)%N
              :: unescape_points rest'
        end
      else if Ascii.eqb c Py.dquote then
        match rest with
        | String d rest' =>
            if Ascii.eqb d Py.dquote
            then N_of_ascii c :: unescape_points rest'
            else N_of_ascii c :: unescape_points rest
        | EmptyString => [N_of_ascii c]
        end
      else N_of_ascii c :: unescape_points rest
  end.



(** The token a comment of the class begins with. *)
Definition comment_token (cls : Variant) : string :=
  match cls with
  | PythonTranslator | RTranslator | JuliaTranslator => "#"
  | ScalaTranslator | CSharpTranslator => "//"
  | MatlabTranslator => "%"
  | FSharpTranslator => "(" +:+ "*"
  | Translator => ""
  end.

(** The keys registered when the module is loaded. *)
Definition builtin_keys : list string :=
  ["python"; "R"; "scala"; "julia"; "matlab"; ".net-csharp"; ".net-fsharp"].

Definition is_composite (val : Value) : bool :=
  match val with
  | VDict _ | VList _ => true
  | _ => false
  end.

(** ** [papermill/utils.py] *)

(** What a utility or a storage method returns or raises. *)
Inductive res (E A : Type) : Type :=
  | Return (a : A)
  | Throw (e : E).
Arguments Return {E A} a.
Arguments Throw {E A} e.

Module Utils.

Inductive Warning : Type :=
  | PapermillParameterOverwriteWarning (msg : string).

Section Kwargs.

Context {V : Type} `{Str V}.

(** A [dict] with [str] keys: its items in insertion order, no key twice. *)
Definition keys (d : list (string * V)) : list string := map fst d.

(** [k in d] and [d[k]] *)
Fixpoint dict_get (k : string) (d : list (string * V)) : option V :=
  match d with
  | [] => None
  | (k', v) :: rest => if String.eqb k' k then Some v else dict_get k rest
  end.

Definition dict_in (k : string) (d : list (string * V)) : bool :=
  match dict_get k d with
  | Some _ => true
  | None => false
  end.

(** [d[k] = v]: an existing key keeps its place, a new key comes last. *)
Fixpoint dict_set (k : string) (v : V) (d : list (string * V))
    : list (string * V) :=
  match d with
  | [] => [(k, v)]
  | (k', v') :: rest =>
      if String.eqb k' k then (k', v) :: rest
      else (k', v') :: dict_set k v rest
  end.

(** [dict(d, **kwargs)] *)
Definition dict_update (d kwargs : list (string * V)) : list (string * V) :=
  fold_left (fun acc '(k, v) => dict_set k v acc) kwargs d.

(** [merge_kwargs]: the warnings it issues and the [dict] it returns
    ([warnings.warn] records the warning and goes on, as it does unless a
    filter turns warnings into errors). *)
Definition merge_kwargs (caller_args callee_args : list (string * V))
    : list Warning * list (string * V) :=
  let conflicts : gset string :=
    list_to_set (keys caller_args) ∩ list_to_set (keys callee_args) in
  let warned :=
    if decide (conflicts = ∅) then []
    else
      let args :=
        Py.join "; "
          (map (fun '(key, value) => key +:+ "=" +:+ str value) callee_args) in
      let msg := "Callee will overwrite caller's argument(s): " +:+ args in
      [PapermillParameterOverwriteWarning msg] in
  (warned, dict_update caller_args callee_args).

(** [remove_args]; [args] is [None] by default. *)
Definition remove_args (args : option (list string))
    (kwargs : list (string * V)) : list (string * V) :=
  match args with
  | Some ((_ :: _) as names) =>
      List.filter (fun '(k, v) => negb (bool_decide (k ∈ names))) kwargs
  | Some [] | None => kwargs
  end.

End Kwargs.

(** What the wrapper made by [retry] raises: the exception of the wrapped
    function, or the [TypeError] of [raise None]. *)
Inductive retry_exn (E : Type) : Type :=
  | Reraised (e : E)
  | TypeError (msg : string).
Arguments Reraised {E} e.
Arguments TypeError {E} msg.

Section Retry.

Context {S A E : Type} `{Str E}.

(** The wrapped function, called on fixed arguments: it acts on a state
    and returns or raises an [Exception]. *)
Variable func : S -> res E A * S.

(** The [for] loop of the wrapper with [n] rounds left; [log] holds the
    records given to [logger.debug] so far. *)
Fixpoint retry_loop (n : nat) (exception : option E) (s : S)
    (log : list string) : res (retry_exn E) A * S * list string :=
  match n with
  | O =>
      match exception with
      | Some e => (Throw (Reraised e), s, log)
      | None =>
          (Throw (TypeError "exceptions must derive from BaseException"),
           s, log)
      end
  | Datatypes.S n' =>
      match func s with
      | (Return a, s') => (Return a, s', log)
      | (Throw e, s') =>
          retry_loop n' (Some e) s'
            (log ++ ["Retrying after: " +:+ str e])
      end
  end.

(** [retry(num)(func)(...)]; [range(num)] is empty for [num <= 0]. *)
Definition retry (num : Z) (s : S) : res (retry_exn E) A * S * list string :=
  retry_loop (Z.to_nat num) None s [].

(** The first [n] calls of [func] in a row, whatever they give. *)
Fixpoint calls (n : nat) (s : S) : list (res E A * S) :=
  match n with
  | O => []
  | Datatypes.S n' => let r := func s in r :: calls n' (snd r)
  end.

End Retry.

Definition is_throw {E A S : Type} (r : res E A * S) : bool :=
  match r with
  | (Throw _, _) => true
  | (Return _, _) => false
  end.

(** The records the wrapper logs for a run of calls that raised. *)
Definition logged {E A S : Type} `{Str E} (trace : list (res E A * S))
    : list string :=
  omap (fun r => match r with
                 | (Throw e, _) => Some ("Retrying after: " +:+ str e)
                 | (Return _, _) => None
                 end) trace.

(** The working directory of the process, changed with [os.chdir]. *)
Section Chdir.

Context {World A E : Type}.

Variable getcwd : World -> string.
(** [os.chdir]: [None] when it raises [OSError]. *)
Variable os_chdir : string -> World -> option World.

Inductive chdir_exn : Type :=
  | OSError
  | FromBody (e : E).

(** [with chdir(path): body] *)
Definition with_chdir (path : option string)
    (body : World -> res E A * World) (w : World)
    : res chdir_exn A * World :=
  match path with
  | None =>
      match body w with
      | (Return a, w') => (Return a, w')
      | (Throw e, w') => (Throw (FromBody e), w')
      end
  | Some path =>
      let old_dir := getcwd w in
      match os_chdir path w with
      | None => (Throw OSError, w)
      | Some w1 =>
          let '(r, w2) := body w1 in
          match os_chdir old_dir w2 with
          | None => (Throw OSError, w2)
          | Some w3 =>
              match r with
              | Return a => (Return a, w3)
              | Throw e => (Throw (FromBody e), w3)
              end
          end
      end
  end.

End Chdir.

End Utils.

(** ** The addresses of [papermill/abs.py] and [papermill/adl.py] *)

(** The part of [re] the two patterns use: literal text, the group of any
    characters but newlines, repeated and greedy, and a final [$], matched
    from the start of the string as [re.match] does. *)
Module Re.

Inductive item : Type :=
  | Lit (s : string)
  | Group
  | Dollar.

Fixpoint strip_prefix (p s : string) : option string :=
  match p, s with
  | EmptyString, _ => Some s
  | String _ _, EmptyString => None
  | String a p', String b s' =>
      if Ascii.eqb a b then strip_prefix p' s' else None
  end.

Fixpoint no_newline (s : string) : bool :=
  match s with
  | EmptyString => true
  | String c rest => negb (Ascii.eqb c Py.newline) && no_newline rest
  end.

(** [$] matches at the end and before a newline that ends the string. *)
Definition at_end (s : string) : bool :=
  String.eqb s "" || String.eqb s Py.nl.

(** The groups of the match, if there is one.  A group takes as many
    characters other than newlines as the rest of the pattern allows. *)
Fixpoint matcher (items : list item) : string -> option (list string) :=
  match items with
  | [] => fun _ => Some []
  | Lit l :: rest =>
      fun s =>
        match strip_prefix l s with
        | Some s' => matcher rest s'
        | None => None
        end
  | Dollar :: rest => fun s => if at_end s then matcher rest s else None
  | Group :: rest =>
      fix greedy (s : string) : option (list string) :=
        let stop := option_map (cons "") (matcher rest s) in
        match s with
        | EmptyString => stop
        | String c s' =>
            if Ascii.eqb c Py.newline then stop
            else
              match greedy s' with
              | Some (g :: gs) => Some (String c g :: gs)
              | _ => stop
              end
        end
  end.

(** The text a list of groups stands for under a pattern. *)
Fixpoint fill (items : list item) (groups : list string) : string :=
  match items with
  | [] => ""
  | Lit l :: rest => l +:+ fill rest groups
  | Dollar :: rest => fill rest groups
  | Group :: rest =>
      match groups with
      | g :: gs => g +:+ fill rest gs
      | [] => ""
      end
  end.

End Re.

Inductive Exception : Type :=
  | Exception_ (msg : string).

Module AzureBlobStore.

Definition pattern : list Re.item :=
  [Re.Lit "abs://"; Re.Group; Re.Lit ".blob.core.windows.net/"; Re.Group;
   Re.Lit "/"; Re.Group; Re.Lit "?"; Re.Group; Re.Dollar].

Record params : Type :=
  { account : string; container : string; blob : string; sas_token : string }.

Definition _split_url (url : string) : res Exception params :=
  match Re.matcher pattern url with
  | Some [g1; g2; g3; g4] =>
      Return {| account := g1; container := g2; blob := g3; sas_token := g4 |}
  | _ => Throw (Exception_ ("Invalid azure blob url '" +:+ url +:+ "'"))
  end.

End AzureBlobStore.

Module ADL.

Definition pattern : list Re.item :=
  [Re.Lit "adl://"; Re.Group; Re.Lit ".azuredatalakestore.net/"; Re.Group;
   Re.Dollar].

Definition _split_url (url : string) : res Exception (string * string) :=
  match Re.matcher pattern url with
  | Some [g1; g2] => Return (g1, g2)
  | _ => Throw (Exception_ ("Invalid ADL url '" +:+ url +:+ "'"))
  end.

Section Lake.

(** The token of [lib.auth] is of a type [T]. *)
Context {T : Type}.

(** The object: its attribute [token], [None] until a token is got. *)
Record state : Type := { token : option T }.

Definition __init__ : state := {| token := None |}.

(** [_get_token]; [auth] is what [lib.auth()] answers when it is called. *)
Definition _get_token (auth : T) (self : state) : T * state :=
  match token self with
  | None => (auth, {| token := Some auth |})
  | Some t => (t, self)
  end.

(** [listdir]; [ls token store_name path] is what the [ls] of the adapter
    made from the token and the store name answers. *)
Definition listdir (auth : T) (ls : T -> string -> string -> list string)
    (self : state) (url : string)
    : res Exception (list string) * state :=
  match _split_url url with
  | Throw e => (Throw e, self)
  | Return (store_name, path) =>
      let '(tok, self') := _get_token auth self in
      (Return
         (map (fun path_to_child =>
                 "adl://" +:+ store_name +:+ ".azuredatalakestore.net/"
                 +:+ path_to_child)
            (ls tok store_name path)),
       self')
  end.

End Lake.

End ADL.

(** ** Sanity checks on concrete inputs *)

Example python_block :
  translate_parameters no_format "python3" "python"
    [("alpha", VInt 1); ("beta", VStr "x")]
  = Ok ("# Parameters" +:+ Py.nl +:+ "alpha = 1" +:+ Py.nl +:+
        "beta = " +:+ Py.chr Py.dquote +:+ "x" +:+ Py.chr Py.dquote +:+ Py.nl).
Proof. vm_compute. reflexivity. Qed.

Example r_list :
  translate RTranslator (VList [VInt 1; VInt 2; VInt 3]) = Ok "list(1, 2, 3)".
Proof. vm_compute. reflexivity. Qed.

Example fsharp_assign : assign FSharpTranslator "x" "42" = "let x = 42".
Proof. reflexivity. Qed.

Example matlab_none : translate MatlabTranslator VNone = Ok "NaN".
Proof. reflexivity. Qed.

Example escape_control :
  translate_escaped_str Translator
    (StrObj ("a" +:+ Py.chr Py.newline +:+ Py.chr Py.backslash +:+
             Py.chr Py.dquote +:+ Py.chr (ascii_of_N 233)))
  = Py.chr Py.dquote +:+ "a" +:+ Py.chr Py.backslash +:+ "n"
    +:+ Py.chr Py.backslash +:+ Py.chr Py.backslash
    +:+ Py.chr Py.backslash +:+ Py.chr Py.dquote
    +:+ Py.chr Py.backslash +:+ "xe9" +:+ Py.chr Py.dquote.
Proof. vm_compute. reflexivity. Qed.

Example strip_comment : comment PythonTranslator "  " = Ok "#".
Proof. vm_compute. reflexivity. Qed.

Example formatter_failure :
  codify (fun _ => Raise (InvalidInput "Cannot parse")) PythonTranslator
    [("not a name", VInt 1)]
  = Raise (InvalidInput "Cannot parse").
Proof. reflexivity. Qed.

Example unknown_translator :
  translate_parameters no_format "nope" "nowhere" []
  = Raise (PapermillException
             "No parameter translator functions specified for kernel 'nope' or language 'nowhere'").
Proof. vm_compute. reflexivity. Qed.

Example language_fallback :
  find_translator papermill_translators "ir" "R" = Ok RTranslator.
Proof. vm_compute. reflexivity. Qed.

Example escape_high_code_points :
  translate_escaped_str_points Translator [233; 8364; 128512]%N
  = Py.chr Py.dquote +:+ Py.chr Py.backslash +:+ "xe9"
    +:+ Py.chr Py.backslash +:+ "u20ac"
    +:+ Py.chr Py.backslash +:+ "U0001f600" +:+ Py.chr Py.dquote.
Proof. vm_compute. reflexivity. Qed.

Example abs_docstring :
  AzureBlobStore._split_url
    "abs://myaccount.blob.core.windows.net/sascontainer/sasblob.txt?sastoken"
  = Return {| AzureBlobStore.account := "myaccount";
              AzureBlobStore.container := "sascontainer";
              AzureBlobStore.blob := "sasblob.txt";
              AzureBlobStore.sas_token := "sastoken" |}.
Proof. reflexivity. Qed.

Example abs_nested_container :
  AzureBlobStore._split_url "abs://a.blob.core.windows.net/c/d/b.txt?t"
  = Return {| AzureBlobStore.account := "a";
              AzureBlobStore.container := "c/d";
              AzureBlobStore.blob := "b.txt";
              AzureBlobStore.sas_token := "t" |}.
Proof. reflexivity. Qed.

Example adl_invalid :
  ADL._split_url "http://lake.azuredatalakestore.net/dir"
  = Throw (Exception_ "Invalid ADL url 'http://lake.azuredatalakestore.net/dir'").
Proof. reflexivity. Qed.

Example merge_conflict :
  Utils.merge_kwargs [("a", 1%Z); ("b", 2%Z)] [("c", 3%Z); ("a", 4%Z)]
  = ([Utils.PapermillParameterOverwriteWarning
        "Callee will overwrite caller's argument(s): c=3; a=4"],
     [("a", 4%Z); ("b", 2%Z); ("c", 3%Z)]).
Proof. vm_compute. reflexivity. Qed.

Example remove_one :
  Utils.remove_args (Some ["a"]) [("a", 1%Z); ("b", 2%Z)] = [("b", 2%Z)].
Proof. vm_compute. reflexivity. Qed.

(** ** Strings and results: general lemmas *)

Lemma append_assoc (a b c : string) : (a +:+ b) +:+ c = a +:+ b +:+ c.
Proof. induction a as [|x a IH]; simpl; [reflexivity | now rewrite IH]. Qed.

Lemma append_empty_r (a : string) : a +:+ "" = a.
Proof. induction a as [|x a IH]; simpl; [reflexivity | now rewrite IH]. Qed.

Lemma contains_middle (before needle after : string) :
  contains needle (before +:+ needle +:+ after).
Proof. exists before, after. reflexivity. Qed.

Lemma contains_append_l (needle a b : string) :
  contains needle b -> contains needle (a +:+ b).
Proof.
  intros (before & after & ->). exists (a +:+ before), after.
  now rewrite append_assoc.
Qed.

Lemma bind_Ok {A B : Type} (m : result A) (k : A -> result B) (b : B) :
  bind m k = Ok b -> exists a, m = Ok a /\ k a = Ok b.
Proof. destruct m as [a|e]; simpl; [eauto | discriminate]. Qed.

Lemma mapM_Ok {A B : Type} (f : A -> result B) (l : list A) :
  Forall (fun a => exists b, f a = Ok b) l -> exists bs, mapM f l = Ok bs.
Proof.
  induction 1 as [|a l [b Hb] _ [bs Hbs]]; simpl.
  - now exists [].
  - rewrite Hb; simpl. rewrite Hbs; simpl. now exists (b :: bs).
Qed.

Lemma mapM_Raise {A B : Type} (f : A -> result B) (e : exn) (l : list A) :
  Forall (fun a => (exists b, f a = Ok b) \/ f a = Raise e) l ->
  Exists (fun a => f a = Raise e) l ->
  mapM f l = Raise e.
Proof.
  induction 1 as [|a l Ha _ IH]; intros Hex.
  - inversion Hex.
  - simpl. destruct Ha as [[b Hb] | Ha].
    + rewrite Hb; simpl.
      inversion Hex as [? ? Hhd | ? ? Htl]; subst; [congruence |].
      now rewrite (IH Htl).
    + now rewrite Ha.
Qed.

(** Induction on values, with the hypothesis available for every value held
    by a [dict] or a [list]. *)
Lemma Value_nested_ind (P : Value -> Prop) :
  P VNone ->
  (forall s, P (VStr s)) ->
  (forall b, P (VBool b)) ->
  (forall z, P (VInt z)) ->
  (forall f, P (VFloat f)) ->
  (forall items, Forall (fun kv => P (snd kv)) items -> P (VDict items)) ->
  (forall elems, Forall P elems -> P (VList elems)) ->
  (forall text, P (VOther text)) ->
  forall val, P val.
Proof.
  intros HNone HStr HBool HInt HFloat HDict HList HOther.
  refine (fix go (val : Value) : P val :=
            match val with
            | VNone => HNone
            | VStr s => HStr s
            | VBool b => HBool b
            | VInt z => HInt z
            | VFloat f => HFloat f
            | VDict items =>
                HDict items
                  ((fix all (l : list (string * Value))
                      : Forall (fun kv => P (snd kv)) l :=
                      match l with
                      | [] => @List.Forall_nil _ _
                      | kv :: rest => @List.Forall_cons _ _ kv rest (go (snd kv)) (all rest)
                      end) items)
            | VList elems =>
                HList elems
                  ((fix all (l : list Value) : Forall P l :=
                      match l with
                      | [] => @List.Forall_nil _ _
                      | v :: rest => @List.Forall_cons _ _ v rest (go v) (all rest)
                      end) elems)
            | VOther text => HOther text
            end).
Qed.

(** ** The registry *)

Section RegistryFacts.

Context {A : Type}.
Implicit Types (self : PapermillTranslators A) (t : A).

Lemma find_translator_kernel self kernel_name language t :
  _translators self !! kernel_name = Some t ->
  find_translator self kernel_name language = Ok t.
Proof. unfold find_translator. now intros ->. Qed.

Lemma find_translator_language self kernel_name language t :
  _translators self !! kernel_name = None ->
  _translators self !! language = Some t ->
  find_translator self kernel_name language = Ok t.
Proof. unfold find_translator. now intros -> ->. Qed.

Lemma find_translator_unknown self kernel_name language :
  _translators self !! kernel_name = None ->
  _translators self !! language = None ->
  find_translator self kernel_name language
  = Raise (PapermillException
             ("No parameter translator functions specified for kernel '"
              +:+ kernel_name +:+ "' or language '" +:+ language +:+ "'")).
Proof. unfold find_translator. now intros -> ->. Qed.

(** C2: [find_translator] answers with the entry of the kernel name when
    there is one, otherwise with the entry of the language when there is
    one, and otherwise raises an exception whose message holds both the
    kernel name and the language it was asked for. *)
Theorem find_translator_two_level self kernel_name language :
  match _translators self !! kernel_name with
  | Some t => find_translator self kernel_name language = Ok t
  | None =>
      match _translators self !! language with
      | Some t => find_translator self kernel_name language = Ok t
      | None =>
          exists msg,
            find_translator self kernel_name language
            = Raise (PapermillException msg)
            /\ contains kernel_name msg /\ contains language msg
      end
  end.
Proof.
  destruct (_translators self !! kernel_name) as [t|] eqn:Hk.
  - now apply find_translator_kernel.
  - destruct (_translators self !! language) as [t|] eqn:Hl.
    + now apply find_translator_language.
    + eexists. split; [now apply find_translator_unknown | split].
      * apply contains_middle.
      * do 2 apply contains_append_l. apply contains_middle.
Qed.

Lemma register_lookup self language t :
  _translators (register self language t) !! language = Some t.
Proof. apply lookup_insert_eq. Qed.

Lemma register_lookup_other self language other t :
  language <> other ->
  _translators (register self language t) !! other
  = _translators self !! other.
Proof. intros Hne. now apply lookup_insert_ne. Qed.

(** C6: after [register] of a translator under a key, [find_translator]
    with that key as kernel name returns this translator, whatever was
    registered under the key before and whatever the language argument is;
    registering twice under one key leaves the registry as the last
    registration alone would. *)
Theorem register_then_find self key t language :
  find_translator (register self key t) key language = Ok t
  /\ forall t0, register (register self key t0) key t = register self key t.
Proof.
  split.
  - apply find_translator_kernel, register_lookup.
  - intros t0. unfold register; simpl. f_equal. apply insert_insert_eq.
Qed.

End RegistryFacts.

(** ** The dispatcher *)

(** [translate] makes the call of the first test of the chain that the
    value passes. *)
Lemma translate_dispatch (cls : Variant) (val : Value) :
  call cls (dispatch val) val = Some (translate cls val).
Proof. destruct val; reflexivity. Qed.

(** C3: a [bool] is an instance of [int], yet for every class [translate]
    hands it to [translate_bool]: the chain of tests reaches the test for
    [bool] first, and the integer branch is not taken. *)
Theorem bool_before_int (cls : Variant) (b : bool) :
  isinstance (VBool b) int_ = true
  /\ dispatch (VBool b) = to_bool
  /\ dispatch (VBool b) <> to_int
  /\ translate cls (VBool b) = Ok (translate_bool cls b).
Proof. repeat split; discriminate. Qed.

(** The two branches can be told apart: for the Scala class the integer
    branch would have printed [True] or [False]. *)
Lemma int_branch_differs (b : bool) :
  call ScalaTranslator to_int (VBool b)
  = Some (Ok (Py.str_bool b))
  /\ call ScalaTranslator to_int (VBool b)
     <> Some (translate ScalaTranslator (VBool b)).
Proof. destruct b; split; try reflexivity; discriminate. Qed.

(** ** Integers *)

Lemma translate_int_wide (cls : Variant) (z : Z) :
  In cls [ScalaTranslator; CSharpTranslator; FSharpTranslator] ->
  translate_int cls (IntObj z)
  = if ((z >? 2147483647) || (z <? -2147483648))%Z
    then Py.str_int z +:+ "L" else Py.str_int z.
Proof. simpl. intros [<- | [<- | [<- | []]]]; reflexivity. Qed.

Lemma translate_int_raw (cls : Variant) (z : Z) :
  In cls [Translator; PythonTranslator; RTranslator; JuliaTranslator;
          MatlabTranslator] ->
  translate_int cls (IntObj z) = Py.str_int z.
Proof. simpl. intros [<- | [<- | [<- | [<- | [<- | []]]]]]; reflexivity. Qed.

(** C4: in the Scala, C# and F# classes [translate_int] prints 2147483647
    and -2147483648 as their digits alone, and 2147483648 and -2147483649
    as their digits followed by [L]; the Scala class prints 3000000000 as
    [3000000000L]. *)
Theorem translate_int_boundary :
  Forall (fun cls =>
            translate_int cls (IntObj 2147483647) = "2147483647"
            /\ translate_int cls (IntObj (-2147483648)) = "-2147483648"
            /\ translate_int cls (IntObj 2147483648) = "2147483648L"
            /\ translate_int cls (IntObj (-2147483649)) = "-2147483649L")
    [ScalaTranslator; CSharpTranslator; FSharpTranslator]
  /\ translate_int ScalaTranslator (IntObj 3000000000) = "3000000000L"
  /\ translate ScalaTranslator (VInt 3000000000) = Ok "3000000000L".
Proof.
  split; [| split; vm_compute; reflexivity].
  repeat apply List.Forall_cons; try apply List.Forall_nil;
    repeat split; vm_compute; reflexivity.
Qed.

(** ** Booleans *)

(** C7, as the code has it: the [translate_bool] of [Translator] prints the
    lower-case keywords [true] and [false], not the raw text of the value;
    the Python class overrides it with the raw text, the R class with
    [TRUE] and [FALSE], and the other classes print what [Translator]
    prints.  The raw text is the default of [translate_int],
    [translate_float] and [translate_none]. *)
Theorem translate_bool_default (b : bool) :
  translate_bool Translator b = (if b then "true" else "false")
  /\ translate_bool PythonTranslator b = translate_raw_str b
  /\ translate_bool RTranslator b = (if b then "TRUE" else "FALSE")
  /\ Forall (fun cls => translate_bool cls b = translate_bool Translator b)
       [ScalaTranslator; JuliaTranslator; MatlabTranslator; CSharpTranslator;
        FSharpTranslator]
  /\ (forall i, translate_int Translator i = translate_raw_str i)
  /\ (forall f, translate_float Translator f = translate_raw_str f)
  /\ translate_none Translator tt = Ok (translate_raw_str tt).
Proof.
  repeat split; try reflexivity.
  repeat apply List.Forall_cons; try apply List.Forall_nil; reflexivity.
Qed.

(** C7 as stated fails: the default [translate_bool] of [True] is [true],
    while the raw text of [True] is [True]. *)
Lemma translate_bool_default_not_raw :
  translate_bool Translator true = "true"
  /\ translate_raw_str true = "True"
  /\ translate_bool Translator true <> translate_raw_str true.
Proof. repeat split. discriminate. Qed.

(** ** Assignment in the R class *)

Lemma startswith_underscore (c : ascii) (rest : string) :
  Py.startswith "_" (String c rest) = Ascii.eqb "_" c.
Proof.
  cbn [Py.startswith]. apply andb_true_r.
Qed.

Lemma drop_leading_underscores_spec (name : string) :
  exists n,
    name = underscores n +:+ drop_leading_underscores name
    /\ Py.startswith "_" (drop_leading_underscores name) = false.
Proof.
  induction name as [|c rest (n & Hn & Hstart)].
  - now exists 0%nat.
  - cbn [drop_leading_underscores]. rewrite startswith_underscore.
    destruct (Ascii.eqb_spec "_" c) as [<- | Hne].
    + exists (S n). split; [| exact Hstart]. simpl. now f_equal.
    + exists 0%nat. split; [reflexivity |].
      rewrite startswith_underscore. now apply Ascii.eqb_neq.
Qed.

Lemma drop_leading_underscores_id (name : string) :
  Py.startswith "_" name = false -> drop_leading_underscores name = name.
Proof.
  destruct name as [|c rest]; [reflexivity |].
  cbn [drop_leading_underscores]. now intros ->.
Qed.

(** C8: [RTranslator.assign] first removes every underscore the name begins
    with, so that the name used no longer begins with one, and then builds
    [name = text]; a name that does not begin with an underscore is used as
    it is. *)
Theorem r_assign_drops_underscores (name str_val : string) :
  (exists n rest,
      name = underscores n +:+ rest
      /\ Py.startswith "_" rest = false
      /\ assign RTranslator name str_val = rest +:+ " = " +:+ str_val)
  /\ (Py.startswith "_" name = false ->
      assign RTranslator name str_val = name +:+ " = " +:+ str_val).
Proof.
  split.
  - destruct (drop_leading_underscores_spec name) as (n & Hn & Hstart).
    now exists n, (drop_leading_underscores name).
  - intros Hstart. unfold assign.
    now rewrite (drop_leading_underscores_id _ Hstart).
Qed.

Lemma r_assign_drops_underscores_witness :
  Py.startswith "_" "alpha_1" = false
  /\ assign RTranslator "alpha_1" "3" = "alpha_1 = 3"
  /\ assign RTranslator "__beta" "3" = "beta = 3".
Proof.
  split; [reflexivity |]. split.
  - apply (proj2 (r_assign_drops_underscores "alpha_1" "3")). reflexivity.
  - reflexivity.
Defined.

(** ** Composite values and the last resort *)

(** C5, as the code has it: on [Translator] itself a [dict] and a [list]
    make [translate] raise, with a message that holds the class and the
    type; a value of no tested type never makes it raise, for any class:
    [translate_escaped_str] puts the text of the value between double
    quotes, and escapes nothing in it since the value is not a [str]. *)
Theorem composite_fails_other_quoted (cls : Variant) (text : string)
    (items : list (string * Value)) (elems : list Value) :
  (exists msg,
      translate Translator (VDict items) = Raise (NotImplementedError msg)
      /\ contains "dict" msg /\ contains (class_repr Translator) msg)
  /\ (exists msg,
      translate Translator (VList elems) = Raise (NotImplementedError msg)
      /\ contains "list" msg /\ contains (class_repr Translator) msg)
  /\ translate cls (VOther text) = Ok (quoted text).
Proof.
  split; [| split].
  - eexists. split; [reflexivity | split].
    + exists "", (" type translation not implemented for "
                  +:+ class_repr Translator). reflexivity.
    + exists "dict type translation not implemented for ", "".
      now rewrite append_empty_r.
  - eexists. split; [reflexivity | split].
    + exists "", (" type translation not implemented for "
                  +:+ class_repr Translator). reflexivity.
    + exists "list type translation not implemented for ", "".
      now rewrite append_empty_r.
  - destruct cls; reflexivity.
Qed.

(** C5 as stated fails: for a tuple whose text holds a double quote, the
    last resort returns the text between quotes as it is, which is not the
    escaped-string form of that text (there the quote is escaped). *)
Lemma other_not_escaped :
  translate Translator (VOther tuple_text) = Ok (quoted tuple_text)
  /\ translate Translator (VOther tuple_text)
     <> Ok (escaped_form Translator tuple_text).
Proof. split; [reflexivity | vm_compute; discriminate]. Qed.

(** Where nothing needs escaping the two forms agree. *)
Lemma unicode_escape_plain (text by_ : string) :
  plain text = true ->
  Py.unicode_escape text = text /\ Py.replace Py.dquote by_ text = text.
Proof.
  induction text as [|c rest IH]; [now split |].
  cbn [plain]. intros [Hc Hrest]%andb_true_iff.
  destruct (IH Hrest) as [Hesc Hrep].
  unfold plain_char in Hc.
  apply andb_true_iff in Hc as [Hc Hq].
  apply andb_true_iff in Hc as [Hrange Hb].
  apply negb_true_iff in Hq, Hb.
  cbn [Py.unicode_escape Py.replace]. unfold Py.unicode_escape_char.
  cbv zeta. rewrite Hrange, Hb, Hq, Hesc, Hrep. now split.
Qed.

Lemma escaped_form_plain (cls : Variant) (text : string) :
  plain text = true -> escaped_form cls text = quoted text.
Proof.
  intros Hplain. unfold escaped_form, translate_escaped_str, quoted.
  destruct (unicode_escape_plain text
              (String Py.dquote (Py.chr Py.dquote)) Hplain) as [-> Hm].
  destruct (unicode_escape_plain text
              (String Py.backslash (Py.chr Py.dquote)) Hplain) as [_ Hd].
  destruct cls; now rewrite ?Hm, ?Hd.
Qed.

(** ** The block built by [codify] *)

Lemma codify_loop_statements (cls : Variant) (ending : string)
    (parameters : list (string * Value)) (content : string) :
  codify_loop cls ending parameters content
  = (lines <- statements cls parameters ;;
     Ok (content +:+ terminated ending lines)).
Proof.
  revert content.
  induction parameters as [|[name val] rest IH]; intros content.
  - simpl. now rewrite append_empty_r.
  - cbn [codify_loop]. unfold statements; cbn [mapM].
    destruct (translate cls val) as [tv|e]; [| reflexivity].
    cbn [bind]. rewrite IH. unfold statements.
    destruct (mapM _ rest) as [lines|e]; [| reflexivity].
    cbn [bind terminated fold_right]. now rewrite !append_assoc.
Qed.

Lemma Translator_codify_assembled (cls : Variant)
    (parameters : list (string * Value)) :
  Translator_codify cls parameters
  = (c <- comment cls "Parameters" ;;
     lines <- statements cls parameters ;;
     Ok (c +:+ Py.nl +:+ terminated Py.nl lines)).
Proof.
  unfold Translator_codify.
  destruct (comment cls "Parameters") as [c|e]; [| reflexivity].
  cbn [bind]. rewrite codify_loop_statements.
  destruct (statements cls parameters); [| reflexivity].
  cbn [bind]. now rewrite append_assoc.
Qed.

Lemma MatlabTranslator_codify_assembled (cls : Variant)
    (parameters : list (string * Value)) :
  MatlabTranslator_codify cls parameters
  = (c <- comment cls "Parameters" ;;
     lines <- statements cls parameters ;;
     Ok (c +:+ Py.nl +:+ terminated (";" +:+ Py.nl) lines)).
Proof.
  unfold MatlabTranslator_codify.
  destruct (comment cls "Parameters") as [c|e]; [| reflexivity].
  cbn [bind]. rewrite codify_loop_statements.
  destruct (statements cls parameters); [| reflexivity].
  cbn [bind]. now rewrite append_assoc.
Qed.

Lemma codify_assembled (format_str : string -> result string)
    (cls : Variant) (parameters : list (string * Value)) :
  codify format_str cls parameters
  = (c <- comment cls "Parameters" ;;
     lines <- statements cls parameters ;;
     finish format_str cls
       (c +:+ Py.nl +:+ terminated (line_ending cls) lines)).
Proof.
  destruct cls; unfold codify, PythonTranslator_codify;
    rewrite ?Translator_codify_assembled, ?MatlabTranslator_codify_assembled;
    cbn [finish line_ending]; try reflexivity.
  (* PythonTranslator: the block goes through the formatter *)
  destruct (comment PythonTranslator "Parameters"); [| reflexivity].
  cbn [bind]. now destruct (statements PythonTranslator parameters).
Qed.

Lemma statements_in_order (cls : Variant)
    (parameters : list (string * Value)) (lines : list string) :
  statements cls parameters = Ok lines ->
  Forall2 (fun p line =>
             exists tv, translate cls (snd p) = Ok tv
                        /\ line = assign cls (fst p) tv)
    parameters lines.
Proof.
  revert lines. induction parameters as [|[name val] rest IH]; intros lines.
  - intros [= <-]. constructor.
  - unfold statements; cbn [mapM].
    intros (line & (tv & Htv & [= <-])%bind_Ok & Hrest)%bind_Ok.
    apply bind_Ok in Hrest as (others & Hothers & [= <-]).
    constructor; [now exists tv | now apply IH].
Qed.

(** C1, as the code has it: [codify] raises what [comment] or the first
    failing [translate] raises; otherwise the block is the comment line and
    a newline, then one line for every parameter, in the order of the
    parameters: the statement [assign] makes of the name and the
    translated value, followed by a newline, which the Matlab class
    precedes with a semicolon; the Python class hands the block to its
    formatter.  For the Python class and the parameters alpha = 1,
    beta = x the block given to the formatter has the three lines of the
    example. *)
Theorem codify_block (format_str : string -> result string) (cls : Variant)
    (parameters : list (string * Value)) :
  codify format_str cls parameters
  = (c <- comment cls "Parameters" ;;
     lines <- statements cls parameters ;;
     finish format_str cls
       (c +:+ Py.nl +:+ terminated (line_ending cls) lines))
  /\ (forall lines,
        statements cls parameters = Ok lines ->
        Forall2 (fun p line =>
                   exists tv, translate cls (snd p) = Ok tv
                              /\ line = assign cls (fst p) tv)
          parameters lines)
  /\ codify format_str PythonTranslator
       [("alpha", VInt 1); ("beta", VStr "x")]
     = format_str
         ("# Parameters" +:+ Py.nl +:+ "alpha = 1" +:+ Py.nl +:+
          "beta = " +:+ quoted "x" +:+ Py.nl).
Proof.
  split; [apply codify_assembled | split; [| reflexivity]].
  apply statements_in_order.
Qed.

Lemma codify_block_witness :
  statements ScalaTranslator [("n", VInt 3); ("on", VBool true)]
  = Ok ["val n = 3"; "val on = true"]
  /\ Forall2 (fun p line =>
                exists tv, translate ScalaTranslator (snd p) = Ok tv
                           /\ line = assign ScalaTranslator (fst p) tv)
       [("n", VInt 3); ("on", VBool true)] ["val n = 3"; "val on = true"].
Proof.
  split; [reflexivity |].
  apply (proj1 (proj2 (codify_block no_format ScalaTranslator
                         [("n", VInt 3); ("on", VBool true)]))).
  reflexivity.
Defined.

(** C1 as stated fails: the Matlab class ends every statement with a
    semicolon before the newline, and the C# class returns no block for a
    parameter that is [None]. *)
Lemma codify_not_as_described :
  codify no_format MatlabTranslator [("a", VInt 1)]
  = Ok ("% Parameters" +:+ Py.nl +:+ "a = 1;" +:+ Py.nl)
  /\ ~ codify_described no_format MatlabTranslator [("a", VInt 1)]
  /\ codify no_format CSharpTranslator [("a", VNone)]
     = Raise option_unsupported
  /\ ~ codify_described no_format CSharpTranslator [("a", VNone)].
Proof.
  split; [reflexivity |]. split; [| split; [reflexivity |]].
  - intros (c & lines & Hc & Hlines & Hcodify).
    vm_compute in Hc, Hlines, Hcodify.
    injection Hc as <-. injection Hlines as <-. discriminate Hcodify.
  - intros (c & lines & _ & Hlines & _). discriminate Hlines.
Qed.

(** ** When [translate] and [codify] return *)

Lemma comment_parameters :
  comment PythonTranslator "Parameters" = Ok "# Parameters"
  /\ comment RTranslator "Parameters" = Ok "# Parameters"
  /\ comment ScalaTranslator "Parameters" = Ok "// Parameters"
  /\ comment JuliaTranslator "Parameters" = Ok "# Parameters"
  /\ comment MatlabTranslator "Parameters" = Ok "% Parameters"
  /\ comment CSharpTranslator "Parameters" = Ok "// Parameters"
  /\ comment FSharpTranslator "Parameters"
     = Ok ("(" +:+ "* Parameters *" +:+ ")").
Proof. repeat split. Qed.

Lemma comment_defined (cls : Variant) (cmt_str : string) :
  cls <> Translator -> exists c, comment cls cmt_str = Ok c.
Proof. intros Hcls. destruct cls; try congruence; eexists; reflexivity. Qed.

Section Composite.

Variables (cls : Variant) (f : Value -> result string).
Hypothesis Hcls : cls <> Translator.

Ltac each_item H :=
  eapply List.Forall_impl; [| exact H]; cbv beta.

Lemma translate_dict_total (items : list (string * Value)) :
  Forall (fun kv => exists s, f (snd kv) = Ok s) items ->
  exists s, translate_dict cls f items = Ok s.
Proof.
  intros Hall. destruct cls; try congruence; unfold translate_dict;
    match goal with
    | |- context [mapM ?g items] =>
        destruct (mapM_Ok g items) as [bs ->];
          [ each_item Hall; intros [k v] [s Hs]; simpl in Hs; rewrite Hs;
            eexists; reflexivity
          | eexists; reflexivity ]
    end.
Qed.

Lemma translate_list_total (elems : list Value) :
  Forall (fun v => exists s, f v = Ok s) elems ->
  exists s, translate_list cls f elems = Ok s.
Proof.
  intros Hall. destruct (mapM_Ok f elems Hall) as [bs Hbs].
  destruct cls; try congruence; unfold translate_list; rewrite Hbs;
    eexists; reflexivity.
Qed.

Lemma translate_dict_raise (e : exn) (items : list (string * Value)) :
  Forall (fun kv => (exists s, f (snd kv) = Ok s) \/ f (snd kv) = Raise e)
    items ->
  Exists (fun kv => f (snd kv) = Raise e) items ->
  translate_dict cls f items = Raise e.
Proof.
  intros Hall Hex. destruct cls; try congruence; unfold translate_dict;
    match goal with
    | |- context [mapM ?g items] =>
        rewrite (mapM_Raise g e items);
          [ reflexivity
          | each_item Hall; intros [k v] [[s Hs] | Hr]; simpl in *;
              [ left; rewrite Hs; eexists; reflexivity
              | right; now rewrite Hr ]
          | eapply List.Exists_impl; [| exact Hex]; cbv beta;
              intros [k v] Hr; simpl in Hr; now rewrite Hr ]
    end.
Qed.

Lemma translate_list_raise (e : exn) (elems : list Value) :
  Forall (fun v => (exists s, f v = Ok s) \/ f v = Raise e) elems ->
  Exists (fun v => f v = Raise e) elems ->
  translate_list cls f elems = Raise e.
Proof.
  intros Hall Hex. pose proof (mapM_Raise f e elems Hall Hex) as Hr.
  destruct cls; try congruence; unfold translate_list; now rewrite Hr.
Qed.

End Composite.

(** Every class but [Translator] and the C# class translates every value. *)
Lemma translate_total (cls : Variant) (val : Value) :
  cls <> Translator -> cls <> CSharpTranslator ->
  exists s, translate cls val = Ok s.
Proof.
  intros Hbase Hcs.
  induction val as [| s | b | z | f | items IH | elems IH | text]
    using Value_nested_ind;
    try (eexists; reflexivity).
  - destruct cls; try congruence; eexists; reflexivity.
  - now apply translate_dict_total.
  - now apply translate_list_total.
Qed.

Lemma existsb_false_Forall {A : Type} (p : A -> bool) (l : list A) :
  existsb p l = false -> Forall (fun a => p a = false) l.
Proof.
  induction l as [|a l IH]; simpl; [constructor |].
  intros [Ha Hl]%orb_false_iff. constructor; auto.
Qed.

Lemma existsb_true_Exists {A : Type} (p : A -> bool) (l : list A) :
  existsb p l = true -> Exists (fun a => p a = true) l.
Proof.
  induction l as [|a l IH]; simpl; [discriminate |].
  intros [Ha | Hl]%orb_true_iff; [now left | right; auto].
Qed.

(** The C# class translates exactly the values that hold no [None]; on the
    others it raises the exception of its [translate_none]. *)
Lemma translate_csharp (val : Value) :
  if has_none val
  then translate CSharpTranslator val = Raise option_unsupported
  else exists s, translate CSharpTranslator val = Ok s.
Proof.
  induction val as [| s | b | z | f | items IH | elems IH | text]
    using Value_nested_ind;
    try (eexists; reflexivity); try reflexivity.
  - cbn [has_none translate].
    destruct (existsb _ items) eqn:Hnone.
    + apply translate_dict_raise; [discriminate | |].
      * eapply List.Forall_impl; [| exact IH]; cbv beta.
        intros [k v] Hv; simpl in *. destruct (has_none v); auto.
      * apply existsb_true_Exists in Hnone.
        rewrite List.Exists_exists in Hnone.
        destruct Hnone as ([k v] & Hin & Hv).
        rewrite List.Forall_forall in IH. specialize (IH _ Hin).
        simpl in IH. rewrite Hv in IH.
        apply List.Exists_exists. now exists (k, v).
    + apply translate_dict_total; [discriminate |].
      apply existsb_false_Forall in Hnone.
      rewrite List.Forall_forall in *. intros [k v] Hin.
      specialize (IH _ Hin). specialize (Hnone _ Hin). simpl in *.
      now rewrite Hnone in IH.
  - cbn [has_none translate].
    destruct (existsb has_none elems) eqn:Hnone.
    + apply translate_list_raise; [discriminate | |].
      * eapply List.Forall_impl; [| exact IH]; cbv beta.
        intros v Hv. destruct (has_none v); auto.
      * apply existsb_true_Exists in Hnone.
        rewrite List.Exists_exists in Hnone.
        destruct Hnone as (v & Hin & Hv).
        rewrite List.Forall_forall in IH. specialize (IH _ Hin).
        rewrite Hv in IH.
        apply List.Exists_exists. now exists v.
    + apply translate_list_total; [discriminate |].
      apply existsb_false_Forall in Hnone.
      rewrite List.Forall_forall in *. intros v Hin.
      specialize (IH _ Hin). specialize (Hnone _ Hin).
      now rewrite Hnone in IH.
Qed.

Lemma statements_total (cls : Variant) (parameters : list (string * Value)) :
  Forall (fun kv => exists s, translate cls (snd kv) = Ok s) parameters ->
  exists lines, statements cls parameters = Ok lines.
Proof.
  intros Hall. apply mapM_Ok.
  eapply List.Forall_impl; [| exact Hall]; cbv beta.
  intros [name val] [s Hs]; simpl in Hs. rewrite Hs. eexists; reflexivity.
Qed.

Lemma statements_csharp (parameters : list (string * Value)) :
  if existsb (fun '(name, val) => has_none val) parameters
  then statements CSharpTranslator parameters = Raise option_unsupported
  else exists lines, statements CSharpTranslator parameters = Ok lines.
Proof.
  destruct (existsb _ parameters) eqn:Hnone.
  - apply mapM_Raise.
    + apply List.Forall_forall. intros [name val] _.
      pose proof (translate_csharp val) as Hv.
      destruct (has_none val).
      * right. now rewrite Hv.
      * left. destruct Hv as [s ->]. eexists; reflexivity.
    + apply existsb_true_Exists in Hnone.
      eapply List.Exists_impl; [| exact Hnone]; cbv beta.
      intros [name val] Hv. pose proof (translate_csharp val) as Hr.
      rewrite Hv in Hr. now rewrite Hr.
  - apply statements_total. apply existsb_false_Forall in Hnone.
    eapply List.Forall_impl; [| exact Hnone]; cbv beta.
    intros [name val] Hv; simpl. pose proof (translate_csharp val) as Hr.
    now rewrite Hv in Hr.
Qed.

Lemma statements_defined (cls : Variant)
    (parameters : list (string * Value)) :
  cls <> Translator -> cls <> CSharpTranslator ->
  exists lines, statements cls parameters = Ok lines.
Proof.
  intros Hbase Hcs. apply statements_total, List.Forall_forall.
  intros [name val] _. now apply translate_total.
Qed.

(** When [codify] returns: for every parameter set in the R, Scala,
    Julia, Matlab and F# classes; in the C# class unless a parameter
    holds a [None] at some depth, and then it raises the exception of
    [translate_none]; in the Python class the block is always built and
    the result is what the formatter makes of it; on [Translator] itself
    it raises, [comment] being undefined. *)
Theorem codify_outcome (format_str : string -> result string)
    (cls : Variant) (parameters : list (string * Value)) :
  match cls with
  | Translator =>
      codify format_str cls parameters
      = Raise (NotImplementedError
                 ("comment translation not implemented for "
                  +:+ class_repr Translator))
  | CSharpTranslator =>
      if existsb (fun '(name, val) => has_none val) parameters
      then codify format_str cls parameters = Raise option_unsupported
      else exists block, codify format_str cls parameters = Ok block
  | PythonTranslator =>
      exists block,
        Translator_codify cls parameters = Ok block
        /\ codify format_str cls parameters = format_str block
  | RTranslator | ScalaTranslator | JuliaTranslator | MatlabTranslator
  | FSharpTranslator =>
      exists block, codify format_str cls parameters = Ok block
  end.
Proof.
  destruct cls; try reflexivity;
    try (rewrite codify_assembled;
         match goal with
         | |- context [statements ?c parameters] =>
             destruct (statements_defined c parameters) as [lines ->];
               [discriminate | discriminate | eexists; reflexivity]
         end).
  - (* PythonTranslator *)
    destruct (statements_defined PythonTranslator parameters)
      as [lines Hlines]; [discriminate | discriminate |].
    unfold codify, PythonTranslator_codify.
    rewrite Translator_codify_assembled, Hlines.
    eexists. split; reflexivity.
  - (* CSharpTranslator *)
    rewrite codify_assembled. pose proof (statements_csharp parameters) as Hs.
    destruct (existsb _ parameters).
    + now rewrite Hs.
    + destruct Hs as [lines ->]. eexists; reflexivity.
Qed.

(** ** The end of the block *)

Lemma codify_loop_newline (cls : Variant) (ending : string)
    (parameters : list (string * Value)) (content out : string) :
  ends_with_newline content ->
  codify_loop cls (ending +:+ Py.nl) parameters content = Ok out ->
  ends_with_newline out.
Proof.
  revert content.
  induction parameters as [|[name val] rest IH]; intros content Hend.
  - intros [= <-]. exact Hend.
  - cbn [codify_loop]. intros (tv & _ & Hrest)%bind_Ok.
    apply (IH (content +:+ assign cls name tv +:+ ending +:+ Py.nl));
      [| exact Hrest].
    exists (content +:+ assign cls name tv +:+ ending).
    now rewrite !append_assoc.
Qed.

(** C10: for the empty parameter set [Translator.codify] and the override
    of the Matlab class return the comment line followed by one newline
    and nothing more, and whatever the parameters every block they return
    ends with a newline.  Every class but the Python one answers [codify]
    with one of the two, and every class but [Translator] has a comment
    line. *)
Theorem codify_trailing_newline (format_str : string -> result string)
    (cls : Variant) (parameters : list (string * Value)) :
  (forall c, comment cls "Parameters" = Ok c ->
     Translator_codify cls [] = Ok (c +:+ Py.nl)
     /\ MatlabTranslator_codify cls [] = Ok (c +:+ Py.nl))
  /\ (forall out,
        Translator_codify cls parameters = Ok out
        \/ MatlabTranslator_codify cls parameters = Ok out ->
        ends_with_newline out)
  /\ (cls <> PythonTranslator ->
      codify format_str cls parameters
      = if decide (cls = MatlabTranslator)
        then MatlabTranslator_codify cls parameters
        else Translator_codify cls parameters)
  /\ (cls <> Translator -> exists c, comment cls "Parameters" = Ok c).
Proof.
  split; [| split; [| split]].
  - intros c Hc. unfold Translator_codify, MatlabTranslator_codify.
    rewrite Hc. split; reflexivity.
  - intros out [H | H];
      unfold Translator_codify, MatlabTranslator_codify in H;
      apply bind_Ok in H as (c & _ & Hloop).
    + apply (codify_loop_newline cls "" parameters (c +:+ Py.nl));
        [now exists c | exact Hloop].
    + apply (codify_loop_newline cls ";" parameters (c +:+ Py.nl));
        [now exists c | exact Hloop].
  - intros Hpy. destruct cls; try congruence; reflexivity.
  - apply comment_defined.
Qed.

Lemma codify_trailing_newline_witness :
  codify no_format MatlabTranslator [] = Ok ("% Parameters" +:+ Py.nl)
  /\ ends_with_newline ("// Parameters" +:+ Py.nl +:+ "val n = 3" +:+ Py.nl).
Proof.
  pose proof (codify_trailing_newline no_format MatlabTranslator [])
    as (Hempty & _ & Hcodify & _).
  pose proof (codify_trailing_newline no_format ScalaTranslator
                [("n", VInt 3)]) as (_ & Hend & _).
  split.
  - rewrite Hcodify; [| discriminate].
    apply (Hempty "% Parameters"). reflexivity.
  - apply Hend. left. reflexivity.
Defined.

(** ** Further properties of the translators *)

Lemma replace_append (c : ascii) (by_ a b : string) :
  Py.replace c by_ (a +:+ b) = Py.replace c by_ a +:+ Py.replace c by_ b.
Proof.
  induction a as [|x a IH]; [reflexivity |].
  cbn [String.append Py.replace]. now rewrite IH, append_assoc.
Qed.


Lemma replace_cons_other (c a : ascii) (by_ s : string) :
  Ascii.eqb a c = false ->
  Py.replace c by_ (String a s) = String a (Py.replace c by_ s).
Proof. intros Ha. cbn [Py.replace]. now rewrite Ha. Qed.


(** *** Hexadecimal digits *)

Lemma below_16 (P : N -> Prop) :
  P 0%N -> P 1%N -> P 2%N -> P 3%N -> P 4%N -> P 5%N -> P 6%N -> P 7%N ->
  P 8%N -> P 9%N -> P 10%N -> P 11%N -> P 12%N -> P 13%N -> P 14%N ->
  P 15%N -> forall d, (d < 16)%N -> P d.
Proof.
  intros. rewrite <- (N2Nat.id d).
  assert (Hd : (N.to_nat d < 16)%nat) by lia.
  revert Hd. generalize (N.to_nat d). intros k Hk.
  do 16 (destruct k as [|k]; [assumption |]). lia.
Qed.

Lemma hexval_hexdigit (d : N) : (d < 16)%N -> hexval (Py.hexdigit d) = d.
Proof. revert d. apply below_16; reflexivity. Qed.

Lemma hexdigit_not_dquote (d : N) :
  (d < 16)%N -> Ascii.eqb (Py.hexdigit d) Py.dquote = false.
Proof. revert d. apply below_16; reflexivity. Qed.


Lemma hex_at_digit (ch weight : N) : ((ch / weight) mod 16 < 16)%N.
Proof. now apply N.mod_lt. Qed.

Lemma mod_split (n k k16 : N) :
  k16 = (k * 16)%N -> (n mod k16 = k * ((n / k) mod 16) + n mod k)%N.
Proof. intros ->. rewrite N.Div0.mod_mul_r. lia. Qed.

Lemma four_digits (n : N) :
  (n < 65536)%N ->
  (4096 * ((n / 4096) mod 16)
   + (256 * ((n / 256) mod 16)
      + (16 * ((n / 16) mod 16) + (n / 1) mod 16)))%N = n.
Proof.
  intros Hn.
  pose proof (N.mod_small n 65536 Hn).
  pose proof (mod_split n 4096 65536 eq_refl).
  pose proof (mod_split n 256 4096 eq_refl).
  pose proof (mod_split n 16 256 eq_refl).
  pose proof (mod_split n 1 16 eq_refl).
  pose proof (N.mod_1_r n).
  lia.
Qed.

Lemma six_digits (n : N) :
  (n < 1114112)%N ->
  (1048576 * ((n / 1048576) mod 16)
   + (65536 * ((n / 65536) mod 16)
      + (4096 * ((n / 4096) mod 16)
         + (256 * ((n / 256) mod 16)
            + (16 * ((n / 16) mod 16) + (n / 1) mod 16)))))%N = n.
Proof.
  intros Hn.
  assert (Hn' : (n < 16777216)%N) by lia.
  pose proof (N.mod_small n 16777216 Hn').
  pose proof (mod_split n 1048576 16777216 eq_refl).
  pose proof (mod_split n 65536 1048576 eq_refl).
  pose proof (mod_split n 4096 65536 eq_refl).
  pose proof (mod_split n 256 4096 eq_refl).
  pose proof (mod_split n 16 256 eq_refl).
  pose proof (mod_split n 1 16 eq_refl).
  pose proof (N.mod_1_r n).
  lia.
Qed.

(** *** One code point *)


Lemma escaped_body_points_cons (cls : Variant) (ch : N) (s : list N) :
  escaped_body_points cls (ch :: s)
  = escaped_body_points cls [ch] +:+ escaped_body_points cls s.
Proof.
  unfold escaped_body_points.
  destruct cls; cbn [unicode_escape_points];
    now rewrite append_empty_r, replace_append.
Qed.

Lemma escaped_point_small (cls : Variant) (ch : N) :
  (ch < 256)%N ->
  escaped_body_points cls [ch] = escaped_body cls (Py.chr (ascii_of_N ch)).
Proof.
  intros Hch%N.ltb_lt.
  unfold escaped_body_points, escaped_body, Py.chr.
  cbn [unicode_escape_points Py.unicode_escape].
  unfold unicode_escape_point. now rewrite Hch.
Qed.

Lemma escaped_point_u4 (cls : Variant) (ch : N) :
  (256 <= ch)%N -> (ch < 65536)%N ->
  escaped_body_points cls [ch]
  = String Py.backslash
      (String "u"
         (String (hex_at ch 4096)
            (String (hex_at ch 256)
               (String (hex_at ch 16) (Py.chr (hex_at ch 1)))))).
Proof.
  intros Hlow%N.ltb_ge Hhigh%N.ltb_lt.
  unfold escaped_body_points. cbn [unicode_escape_points].
  unfold unicode_escape_point, Py.chr. rewrite Hlow, Hhigh, append_empty_r.
  destruct cls;
    repeat (rewrite replace_cons_other;
            [| first [ reflexivity
                     | apply hexdigit_not_dquote, hex_at_digit ]]);
    reflexivity.
Qed.

Lemma escaped_point_u8 (cls : Variant) (ch : N) :
  (65536 <= ch)%N ->
  escaped_body_points cls [ch]
  = String Py.backslash
      (String "U"
         (String "0"
            (String "0"
               (String (hex_at ch 1048576)
                  (String (hex_at ch 65536)
                     (String (hex_at ch 4096)
                        (String (hex_at ch 256)
                           (String (hex_at ch 16)
                              (Py.chr (hex_at ch 1)))))))))).
Proof.
  intros Hhigh.
  assert (Hlow : (ch <? 256)%N = false) by (apply N.ltb_ge; lia).
  apply N.ltb_ge in Hhigh.
  unfold escaped_body_points. cbn [unicode_escape_points].
  unfold unicode_escape_point, Py.chr. rewrite Hlow, Hhigh, append_empty_r.
  destruct cls;
    repeat (rewrite replace_cons_other;
            [| first [ reflexivity
                     | apply hexdigit_not_dquote, hex_at_digit ]]);
    reflexivity.
Qed.

Lemma unescape_small (cls : Variant) (c : ascii) (rest : string) :
  unescape_points (escaped_body cls (Py.chr c) +:+ rest)
  = N_of_ascii c :: unescape_points rest.
Proof.
  destruct cls; destruct c as [[] [] [] [] [] [] [] []]; reflexivity.
Qed.

Lemma unescape_point (cls : Variant) (ch : N) (rest : string) :
  (ch < 1114112)%N ->
  unescape_points (escaped_body_points cls [ch] +:+ rest)
  = ch :: unescape_points rest.
Proof.
  intros Hch.
  destruct (N.lt_ge_cases ch 256) as [Hsmall | Hlow].
  - rewrite (escaped_point_small _ _ Hsmall), unescape_small.
    now rewrite N_ascii_embedding.
  - destruct (N.lt_ge_cases ch 65536) as [Hu4 | Hu8].
    + rewrite (escaped_point_u4 _ _ Hlow Hu4).
      cbn [String.append Py.chr unescape_points Ascii.eqb Py.backslash
           Bool.eqb].
      unfold hex_at. rewrite !hexval_hexdigit by apply hex_at_digit.
      now rewrite four_digits.
    + rewrite (escaped_point_u8 _ _ Hu8).
      cbn [String.append Py.chr unescape_points Ascii.eqb Py.backslash
           Bool.eqb].
      unfold hex_at. rewrite !hexval_hexdigit by apply hex_at_digit.
      now rewrite six_digits.
Qed.

Lemma unescape_escaped_points (cls : Variant) (s : list N) (rest : string) :
  is_str s ->
  unescape_points (escaped_body_points cls s +:+ rest)
  = (s ++ unescape_points rest)%list.
Proof.
  induction 1 as [|ch s Hch _ IH]; [now destruct cls |].
  rewrite escaped_body_points_cons, append_assoc, (unescape_point _ _ _ Hch).
  now rewrite IH.
Qed.

(** The literal of a string determines the string: in every class two
    different strings, of any code points, have different literals. *)
Theorem translate_escaped_str_injective (cls : Variant) (s1 s2 : list N) :
  is_str s1 -> is_str s2 ->
  translate_escaped_str_points cls s1 = translate_escaped_str_points cls s2 ->
  s1 = s2.
Proof.
  intros Hs1 Hs2. unfold translate_escaped_str_points.
  cbn [String.append Py.chr]. intros [= Heq].
  apply (f_equal unescape_points) in Heq.
  rewrite !unescape_escaped_points in Heq by assumption.
  now apply app_inv_tail in Heq.
Qed.

Lemma translate_escaped_str_injective_witness :
  [97; 8364; 128512]%N = [97; 8364; 128512]%N.
Proof.
  apply (translate_escaped_str_injective MatlabTranslator);
    [repeat constructor | repeat constructor | reflexivity].
Defined.







(** When [translate] returns: always in the Python, R, Scala, Julia,
    Matlab and F# classes; in the C# class exactly for the values that hold
    no [None] at any depth; on [Translator] itself exactly for the values
    that are no [dict] and no [list]. *)
Theorem translate_outcome (cls : Variant) (val : Value) :
  match cls with
  | Translator =>
      if is_composite val
      then exists msg, translate cls val = Raise (NotImplementedError msg)
      else exists s, translate cls val = Ok s
  | CSharpTranslator =>
      if has_none val
      then translate cls val = Raise option_unsupported
      else exists s, translate cls val = Ok s
  | _ => exists s, translate cls val = Ok s
  end.
Proof.
  destruct cls; try (apply translate_total; discriminate).
  - destruct val; eexists; reflexivity.
  - apply translate_csharp.
Qed.

(** ** Further properties of the registry *)

(** Registering under a key changes no answer of [find_translator] that
    asks for other keys, and registrations under different keys can be
    made in either order. *)
Theorem register_frame {A : Type} (self : PapermillTranslators A)
    (key : string) (t : A) (kernel_name language : string) :
  key <> kernel_name -> key <> language ->
  find_translator (register self key t) kernel_name language
  = find_translator self kernel_name language
  /\ forall t', register (register self key t) kernel_name t'
                = register (register self kernel_name t') key t.
Proof.
  intros Hk Hl. split.
  - unfold find_translator.
    now rewrite !register_lookup_other.
  - intros t'. unfold register; cbn. f_equal.
    now apply insert_insert_ne.
Qed.

Lemma register_frame_witness :
  find_translator (register papermill_translators "ir" RTranslator)
    "python3" "python"
  = Ok PythonTranslator.
Proof.
  rewrite (proj1 (register_frame papermill_translators "ir" RTranslator
                    "python3" "python" ltac:(discriminate)
                    ltac:(discriminate))).
  reflexivity.
Defined.

Lemma builtin_lookup (k : string) :
  is_Some (_translators papermill_translators !! k) <-> In k builtin_keys.
Proof.
  unfold papermill_translators, register, init, builtin_keys.
  cbn [_translators]. rewrite !lookup_insert, lookup_empty.
  repeat case_decide; subst; cbn [In];
    (split; [intros [t Ht]; try discriminate Ht; tauto
            | intros Hin; try (eexists; reflexivity);
              exfalso; intuition congruence]).
Qed.

(** With the registry of the module, [find_translator] returns a class
    exactly when the kernel name or the language is one of the seven keys
    registered at load time, spelled as registered; otherwise
    [translate_parameters] raises, whatever the parameters. *)
Theorem builtin_resolution (format_str : string -> result string)
    (kernel_name language : string) (parameters : list (string * Value)) :
  ((exists cls,
       find_translator papermill_translators kernel_name language = Ok cls)
   <-> In kernel_name builtin_keys \/ In language builtin_keys)
  /\ (~ In kernel_name builtin_keys -> ~ In language builtin_keys ->
      exists msg,
        translate_parameters format_str kernel_name language parameters
        = Raise (PapermillException msg)).
Proof.
  pose proof (builtin_lookup kernel_name) as Hk.
  pose proof (builtin_lookup language) as Hl.
  unfold translate_parameters, find_translator.
  destruct (_translators papermill_translators !! kernel_name) as [t|].
  - split; [| intros Hno; exfalso; apply Hno, Hk; eauto].
    split; [intros _; left; apply Hk; eauto | eauto].
  - destruct (_translators papermill_translators !! language) as [t|].
    + split; [| intros _ Hno; exfalso; apply Hno, Hl; eauto].
      split; [intros _; right; apply Hl; eauto | eauto].
    + split; [| intros _ _; eexists; reflexivity].
      split; [intros [cls Hcls]; discriminate Hcls |].
      intros [Hin | Hin]; [apply Hk in Hin | apply Hl in Hin];
        destruct Hin as [t Ht]; discriminate Ht.
Qed.

Lemma builtin_resolution_witness :
  exists msg,
    translate_parameters no_format "r" "Python" [("a", VInt 1)]
    = Raise (PapermillException msg).
Proof.
  apply (proj2 (builtin_resolution no_format "r" "Python" [("a", VInt 1)]));
    cbn; intuition discriminate.
Defined.

(** ** Further properties of the blocks *)

Lemma mapM_app {A B : Type} (f : A -> result B) (l1 l2 : list A) :
  mapM f (l1 ++ l2)%list
  = (bs1 <- mapM f l1 ;; bs2 <- mapM f l2 ;; Ok (bs1 ++ bs2)%list).
Proof.
  induction l1 as [|a l1 IH]; cbn [mapM app bind].
  - now destruct (mapM f l2).
  - destruct (f a); [| reflexivity]. cbn [bind]. rewrite IH.
    destruct (mapM f l1); [| reflexivity]. cbn [bind].
    now destruct (mapM f l2).
Qed.

Lemma terminated_app (ending : string) (l1 l2 : list string) :
  terminated ending (l1 ++ l2)%list
  = terminated ending l1 +:+ terminated ending l2.
Proof.
  induction l1 as [|x l1 IH]; [reflexivity |].
  cbn [app terminated fold_right]. fold (terminated ending (l1 ++ l2)%list).
  fold (terminated ending l1). now rewrite IH, !append_assoc.
Qed.

(** Parameters added at the end of a parameter set add their lines at the
    end of the block and leave the lines before them as they were; a
    parameter set whose block cannot be built cannot be mended by adding
    parameters. *)
Theorem codify_append (format_str : string -> result string) (cls : Variant)
    (parameters more : list (string * Value)) :
  cls <> PythonTranslator ->
  (forall block lines,
      codify format_str cls parameters = Ok block ->
      statements cls more = Ok lines ->
      codify format_str cls (parameters ++ more)%list
      = Ok (block +:+ terminated (line_ending cls) lines))
  /\ (forall e,
        codify format_str cls parameters = Raise e ->
        codify format_str cls (parameters ++ more)%list = Raise e).
Proof.
  intros Hpy.
  assert (Hfinish : finish format_str cls = Ok) by now destruct cls.
  rewrite !codify_assembled, Hfinish. unfold statements.
  rewrite mapM_app. fold (statements cls parameters) (statements cls more).
  destruct (comment cls "Parameters") as [c|e0]; cbn [bind];
    [| split; [discriminate | trivial]].
  destruct (statements cls parameters) as [lines0|e0]; cbn [bind];
    [| split; [discriminate | trivial]].
  split; [| discriminate].
  intros block lines [= <-] ->. cbn [bind].
  now rewrite terminated_app, !append_assoc.
Qed.

Lemma codify_append_witness :
  codify no_format MatlabTranslator ([("a", VInt 1)] ++ [("b", VNone)])%list
  = Ok (("% Parameters" +:+ Py.nl +:+ "a = 1;" +:+ Py.nl) +:+
        terminated (";" +:+ Py.nl) ["b = NaN"]).
Proof.
  apply (proj1 (codify_append no_format MatlabTranslator
                  [("a", VInt 1)] [("b", VNone)] ltac:(discriminate)));
    reflexivity.
Defined.

Lemma drop_leading_underscores_app (n : nat) (name : string) :
  drop_leading_underscores (underscores n +:+ name)
  = drop_leading_underscores name.
Proof. induction n as [|n IH]; [reflexivity | exact IH]. Qed.

(** In the R class the underscores a name begins with do not count: names
    that differ in them only get the same statement, and a name made of
    underscores only gets a statement with no name at all. *)
Theorem r_assign_underscore_collision (n : nat) (name str_val : string) :
  assign RTranslator (underscores n +:+ name) str_val
  = assign RTranslator name str_val
  /\ assign RTranslator (underscores n) str_val = " = " +:+ str_val.
Proof.
  unfold assign. rewrite drop_leading_underscores_app. split; [reflexivity |].
  rewrite <- (append_empty_r (underscores n)).
  now rewrite drop_leading_underscores_app.
Qed.

(** *** Comments *)

Lemma rstrip_cons (a : ascii) (s : string) :
  Py.isspace a = false -> Py.rstrip (String a s) = String a (Py.rstrip s).
Proof.
  intros Ha. cbn [Py.rstrip]. rewrite Ha. now destruct (Py.rstrip s).
Qed.

Lemma rstrip_idempotent (s : string) : Py.rstrip (Py.rstrip s) = Py.rstrip s.
Proof.
  induction s as [|a s IH]; [reflexivity |].
  cbn [Py.rstrip]. destruct (Py.rstrip s) as [|b kept] eqn:Hkept.
  - destruct (Py.isspace a) eqn:Ha; [reflexivity |].
    unfold Py.chr. cbn [Py.rstrip]. now rewrite Ha.
  - cbn [Py.rstrip] in *. rewrite IH. reflexivity.
Qed.

Lemma strip_token1 (a : ascii) (s : string) :
  Py.isspace a = false -> Py.strip (String a s) = String a (Py.rstrip s).
Proof.
  intros Ha. unfold Py.strip. cbn [Py.lstrip]. rewrite Ha.
  now apply rstrip_cons.
Qed.

Lemma strip_token2 (a b : ascii) (s : string) :
  Py.isspace a = false -> Py.isspace b = false ->
  Py.strip (String a (String b s)) = String a (String b (Py.rstrip s)).
Proof.
  intros Ha Hb. rewrite (strip_token1 a) by exact Ha.
  now rewrite (rstrip_cons b) by exact Hb.
Qed.

Lemma comment_rest (cls : Variant) (cmt_str : string) :
  cls <> Translator ->
  comment cls cmt_str
  = Ok (comment_token cls +:+
        Py.rstrip (match cls with
                   | FSharpTranslator => " " +:+ cmt_str +:+ " *" +:+ ")"
                   | _ => " " +:+ cmt_str
                   end)).
Proof.
  intros Hbase. destruct cls; try congruence; unfold comment, comment_token;
    cbn [String.append];
    first [ now rewrite strip_token2 by reflexivity
          | now rewrite strip_token1 by reflexivity ].
Qed.

(** The comment of every class begins with the comment token of the
    language and has no space left at its end, whatever the text: a text
    of spaces only, or none, gives the bare token. *)
Theorem comment_shape (cls : Variant) (cmt_str : string) :
  cls <> Translator ->
  exists rest,
    comment cls cmt_str = Ok (comment_token cls +:+ rest)
    /\ Py.rstrip (comment_token cls +:+ rest) = comment_token cls +:+ rest
    /\ (cls <> FSharpTranslator -> Py.rstrip (" " +:+ cmt_str) = "" ->
        rest = "").
Proof.
  intros Hbase. eexists. split; [now apply comment_rest |]. split.
  - destruct cls; try congruence; unfold comment_token;
      cbn [String.append];
      rewrite ?rstrip_cons by reflexivity;
      now rewrite rstrip_idempotent.
  - intros Hfs Hblank. destruct cls; try congruence; exact Hblank.
Qed.

Lemma comment_shape_witness :
  comment ScalaTranslator "   " = Ok "//".
Proof.
  destruct (comment_shape ScalaTranslator "   " ltac:(discriminate))
    as (rest & Hc & _ & Hblank).
  rewrite Hc, Hblank; [reflexivity | discriminate | reflexivity].
Defined.

(** ** [merge_kwargs] and [remove_args] *)

Section KwargsFacts.

Context {V : Type} `{Str V}.
Implicit Types (d caller callee kwargs : list (string * V)) (k : string).

Import Utils.

Lemma dict_in_keys k d : dict_in k d = true <-> k ∈ keys d.
Proof.
  unfold dict_in. induction d as [|[k' v] d IH]; cbn.
  - split; [discriminate | intros Hin; inversion Hin].
  - rewrite elem_of_cons.
    destruct (String.eqb_spec k' k) as [-> | Hne]; [tauto |].
    rewrite IH. intuition congruence.
Qed.

Lemma dict_get_None k d : k ∉ keys d -> dict_get k d = None.
Proof.
  intros Hk. pose proof (dict_in_keys k d) as Hin. unfold dict_in in Hin.
  destruct (dict_get k d); [exfalso; apply Hk, Hin; reflexivity | reflexivity].
Qed.

Lemma dict_get_set k k' (v : V) d :
  dict_get k (dict_set k' v d)
  = if String.eqb k' k then Some v else dict_get k d.
Proof.
  induction d as [|[k0 v0] d IH]; cbn; [reflexivity |].
  destruct (String.eqb_spec k0 k') as [-> | Hne]; cbn.
  - now destruct (String.eqb k' k).
  - rewrite IH. destruct (String.eqb_spec k0 k) as [-> | Hne0];
      [| reflexivity].
    destruct (String.eqb_spec k' k); [congruence | reflexivity].
Qed.

Lemma dict_get_update k d kwargs :
  NoDup (keys kwargs) ->
  dict_get k (dict_update d kwargs)
  = match dict_get k kwargs with
    | Some v => Some v
    | None => dict_get k d
    end.
Proof.
  unfold dict_update. revert d.
  induction kwargs as [|[k1 v1] kwargs IH]; intros d Hnodup; [reflexivity |].
  cbn in Hnodup. apply NoDup_cons in Hnodup as [Hk1 Hnodup].
  cbn [fold_left dict_get]. rewrite (IH _ Hnodup), dict_get_set.
  destruct (String.eqb_spec k1 k) as [-> | Hne]; [| reflexivity].
  now rewrite (dict_get_None _ _ Hk1).
Qed.

(** In the [dict] [merge_kwargs] returns, an argument of the callee has
    the value of the callee, and any other argument has the value the
    caller gave it, if any. *)
Theorem merge_kwargs_lookup caller callee k :
  NoDup (keys callee) ->
  dict_get k (snd (merge_kwargs caller callee))
  = match dict_get k callee with
    | Some v => Some v
    | None => dict_get k caller
    end.
Proof. intros Hnodup. now apply dict_get_update. Qed.

Lemma keys_dict_set k (v : V) d :
  keys (dict_set k v d)
  = if dict_in k d then keys d else (keys d ++ [k])%list.
Proof.
  unfold dict_in, keys. induction d as [|[k0 v0] d IH]; cbn; [reflexivity |].
  destruct (String.eqb_spec k0 k) as [-> | Hne]; cbn; [reflexivity |].
  rewrite IH. now destruct (dict_get k d).
Qed.

Lemma dict_in_set k k' (v : V) d :
  dict_in k (dict_set k' v d) = String.eqb k' k || dict_in k d.
Proof.
  unfold dict_in. rewrite dict_get_set. now destruct (String.eqb k' k).
Qed.

Lemma filter_ext_keys (p q : string -> bool) (l : list string) :
  (forall k, k ∈ l -> p k = q k) -> List.filter p l = List.filter q l.
Proof.
  induction l as [|k l IH]; intros Hpq; [reflexivity |].
  cbn. rewrite (Hpq k) by apply list_elem_of_here.
  rewrite IH; [reflexivity |].
  intros k' Hk'. apply Hpq. now apply list_elem_of_further.
Qed.

Lemma keys_dict_update d kwargs :
  NoDup (keys kwargs) ->
  keys (dict_update d kwargs)
  = (keys d ++ List.filter (fun k => negb (dict_in k d)) (keys kwargs))%list.
Proof.
  unfold dict_update. revert d.
  induction kwargs as [|[k1 v1] kwargs IH]; intros d Hnodup.
  - cbn. now rewrite app_nil_r.
  - cbn in Hnodup. apply NoDup_cons in Hnodup as [Hk1 Hnodup].
    cbn [fold_left]. rewrite (IH _ Hnodup), keys_dict_set.
    change (keys ((k1, v1) :: kwargs)) with (k1 :: keys kwargs).
    cbn [List.filter].
    rewrite (filter_ext_keys _ (fun k => negb (dict_in k d))).
    + destruct (dict_in k1 d); cbn [negb]; [reflexivity |].
      now rewrite <- app_assoc.
    + intros k Hk. rewrite dict_in_set.
      destruct (String.eqb_spec k1 k) as [-> | Hne]; [contradiction |].
      reflexivity.
Qed.

(** The [dict] returned keeps the arguments of the caller in their places
    and puts the new arguments of the callee after them, in the order of
    the callee; no key occurs twice in it. *)
Theorem merge_kwargs_order caller callee :
  NoDup (keys caller) -> NoDup (keys callee) ->
  keys (snd (merge_kwargs caller callee))
  = (keys caller
     ++ List.filter (fun k => negb (dict_in k caller)) (keys callee))%list
  /\ NoDup (keys (snd (merge_kwargs caller callee))).
Proof.
  intros Hcaller Hcallee. cbn [merge_kwargs snd].
  rewrite (keys_dict_update _ _ Hcallee). split; [reflexivity |].
  apply NoDup_app. repeat split.
  - exact Hcaller.
  - intros k Hk Hk'. apply list_elem_of_In, List.filter_In in Hk' as [_ Hk'].
    apply dict_in_keys in Hk. now rewrite Hk in Hk'.
  - apply NoDup_ListNoDup, List.NoDup_filter, NoDup_ListNoDup, Hcallee.
Qed.

Lemma contains_join (sep x : string) (l : list string) :
  In x l -> contains x (Py.join sep l).
Proof.
  induction l as [|y l IH]; [intros [] |].
  intros [-> | Hin].
  - destruct l as [|z l]; cbn [Py.join].
    + exists "", "". cbn. now rewrite append_empty_r.
    + exists "", (sep +:+ Py.join sep (z :: l)). reflexivity.
  - destruct l as [|z l]; [destruct Hin |].
    cbn [Py.join]. do 2 apply contains_append_l. now apply IH.
Qed.

(** [merge_kwargs] warns exactly when the caller and the callee have an
    argument in common; it then issues one warning, whose message names
    every argument of the callee with its value, also those the caller
    does not have. *)
Theorem merge_kwargs_warning caller callee :
  (fst (merge_kwargs caller callee) = []
   <-> forall k, k ∈ keys caller -> k ∉ keys callee)
  /\ (fst (merge_kwargs caller callee) = []
      \/ exists msg,
          fst (merge_kwargs caller callee)
          = [PapermillParameterOverwriteWarning msg]
          /\ forall k v, In (k, v) callee ->
                         contains (k +:+ "=" +:+ str v) msg).
Proof.
  unfold merge_kwargs; cbn [fst].
  destruct (decide (_ = ∅)) as [Hempty | Hcommon].
  - split; [| now left]. split; [| reflexivity].
    intros _ k Hk Hk'.
    apply (not_elem_of_empty (C := gset string) k). rewrite <- Hempty.
    now rewrite elem_of_intersection, !elem_of_list_to_set.
  - split.
    + split; [discriminate |]. intros Hdisjoint. exfalso. apply Hcommon.
      apply set_eq. intros k. split; [| set_solver].
      rewrite elem_of_intersection, !elem_of_list_to_set.
      intros [Hk Hk']. now destruct (Hdisjoint k).
    + right. eexists. split; [reflexivity |].
      intros k v Hin. apply contains_append_l, contains_join.
      apply List.in_map_iff. now exists (k, v).
Qed.

Lemma dict_get_filter (p : string -> bool) k kwargs :
  dict_get k (List.filter (fun '(k', v) => p k') kwargs)
  = if p k then dict_get k kwargs else None.
Proof.
  induction kwargs as [|[k' v] kwargs IH]; cbn; [now destruct (p k) |].
  destruct (p k') eqn:Hp; cbn; rewrite IH;
    destruct (String.eqb_spec k' k) as [-> | Hne]; try reflexivity.
  - now rewrite Hp.
  - now rewrite Hp.
Qed.

Lemma remove_args_filter (args : list string) kwargs :
  remove_args (Some args) kwargs
  = List.filter (fun '(k, v) => negb (bool_decide (k ∈ args))) kwargs.
Proof.
  destruct args as [|a args]; [| reflexivity].
  cbn [remove_args]. induction kwargs as [|[k v] kwargs IH];
    [reflexivity |].
  cbn [List.filter].
  destruct (bool_decide_reflect (k ∈ @nil string)) as [Hin | _];
    [inversion Hin |].
  cbn [negb]. now rewrite <- IH.
Qed.

(** [remove_args] takes out the arguments named and leaves the others
    with their values and in their order; without names, or with an empty
    list of names, it returns the arguments as they are. *)
Theorem remove_args_spec (args : list string) kwargs k :
  dict_get k (remove_args (Some args) kwargs)
  = (if bool_decide (k ∈ args) then None else dict_get k kwargs)
  /\ keys (remove_args (Some args) kwargs)
     = List.filter (fun k' => negb (bool_decide (k' ∈ args))) (keys kwargs)
  /\ remove_args None kwargs = kwargs
  /\ remove_args (Some []) kwargs = kwargs.
Proof.
  rewrite remove_args_filter. repeat split.
  - rewrite (dict_get_filter (fun k' => negb (bool_decide (k' ∈ args)))).
    now destruct (bool_decide (k ∈ args)).
  - unfold keys. induction kwargs as [|[k' v] kwargs IH]; [reflexivity |].
    cbn [List.filter map fst].
    destruct (negb (bool_decide (k' ∈ args))); cbn [map fst];
      now rewrite IH.
Qed.

(** Removing in two steps is removing the names of both steps at once,
    in particular removing the same names again changes nothing. *)
Theorem remove_args_twice (args more : list string) kwargs :
  remove_args (Some args) (remove_args (Some more) kwargs)
  = remove_args (Some (args ++ more)%list) kwargs
  /\ remove_args (Some args) (remove_args (Some args) kwargs)
     = remove_args (Some args) kwargs.
Proof.
  rewrite !remove_args_filter. split.
  - induction kwargs as [|[k v] kwargs IH]; [reflexivity |].
    cbn [List.filter].
    destruct (bool_decide_reflect (k ∈ more)) as [Hm | Hm]; cbn [negb].
    + rewrite IH.
      destruct (bool_decide_reflect (k ∈ (args ++ more)%list)) as [_ | Hn];
        [reflexivity | exfalso; apply Hn; set_solver].
    + cbn [List.filter]. rewrite IH.
      destruct (bool_decide_reflect (k ∈ args));
        destruct (bool_decide_reflect (k ∈ (args ++ more)%list));
        cbn [negb]; try reflexivity; exfalso; set_solver.
  - induction kwargs as [|[k v] kwargs IH]; [reflexivity |].
    cbn [List.filter].
    destruct (bool_decide (k ∈ args)) eqn:Ha; cbn [negb]; [exact IH |].
    cbn [List.filter]. rewrite Ha. cbn [negb]. now rewrite IH.
Qed.

End KwargsFacts.

Lemma merge_kwargs_lookup_witness :
  Utils.dict_get "a"
    (snd (Utils.merge_kwargs [("a", 1%Z); ("b", 2%Z)]
            [("c", 3%Z); ("a", 4%Z)]))
  = Some 4%Z.
Proof.
  refine (merge_kwargs_lookup [("a", 1%Z); ("b", 2%Z)]
            [("c", 3%Z); ("a", 4%Z)] "a" _).
  eapply bool_decide_unpack. vm_compute. exact I.
Defined.

Lemma merge_kwargs_order_witness :
  Utils.keys
    (snd (Utils.merge_kwargs [("a", 1%Z); ("b", 2%Z)]
            [("c", 3%Z); ("a", 4%Z)]))
  = ["a"; "b"; "c"].
Proof.
  refine (proj1 (merge_kwargs_order [("a", 1%Z); ("b", 2%Z)]
                   [("c", 3%Z); ("a", 4%Z)] _ _));
    eapply bool_decide_unpack; vm_compute; exact I.
Defined.

Lemma merge_kwargs_warning_witness :
  fst (Utils.merge_kwargs [("a", 1%Z)] [("b", 2%Z)]) = [].
Proof.
  apply (proj1 (merge_kwargs_warning [("a", 1%Z)] [("b", 2%Z)])).
  intros k. cbn. set_solver.
Defined.

(** ** [retry] *)

Section RetryFacts.

Context {S A E : Type} `{Str E}.
Variable func : S -> res E A * S.

Import Utils.

Lemma retry_loop_success (n k : nat) (exception : option E) (s s' : S)
    (log : list string) (a : A) :
  calls func n s !! k = Some (Return a, s') ->
  forallb is_throw (take k (calls func n s)) = true ->
  retry_loop func n exception s log
  = (Return a, s', (log ++ logged (take k (calls func n s)))%list).
Proof.
  revert k exception s log.
  induction n as [|n IH]; intros k exception s log; [discriminate |].
  cbn [calls retry_loop]. destruct k as [|k]; cbn [lookup list_lookup take].
  - intros [= Hcall] _. rewrite Hcall. cbn. now rewrite app_nil_r.
  - cbn [forallb]. intros Hk [Hthrow Hrest]%andb_true_iff.
    destruct (func s) as [[a0 | e] s1]; [discriminate |].
    cbn [snd] in *. rewrite (IH k _ _ _ Hk Hrest).
    cbn [logged omap list_omap]. now rewrite <- app_assoc.
Qed.

Lemma retry_loop_exhausted (n : nat) (exception : option E) (s : S)
    (log : list string) :
  forallb is_throw (calls func n s) = true ->
  retry_loop func n exception s log
  = (match last (calls func n s), exception with
     | Some (Throw e, _), _ | None, Some e => Throw (Reraised e)
     | _, _ => Throw (TypeError "exceptions must derive from BaseException")
     end,
     match last (calls func n s) with
     | Some (_, s') => s'
     | None => s
     end,
     (log ++ logged (calls func n s))%list).
Proof.
  revert exception s log.
  induction n as [|n IH]; intros exception s log.
  - intros _. cbn. rewrite app_nil_r. now destruct exception.
  - cbn [calls forallb retry_loop]. intros [Hthrow Hrest]%andb_true_iff.
    destruct (func s) as [[a0 | e] s1] eqn:Hcall; [discriminate |].
    cbn [snd] in *. rewrite (IH _ _ _ Hrest).
    cbn [logged omap list_omap]. rewrite <- app_assoc.
    destruct n as [|n]; [reflexivity |].
    cbn [calls]. rewrite !last_cons.
    now destruct (last (calls func n (func s1).2)) as [[[] ?]|].
Qed.

(** The wrapper made by [retry] calls the function until it returns: when
    the call number [k + 1] is the first that returns, and [k] is below
    [num], the wrapper returns its value after exactly these calls, and
    has logged one record for each of the [k] calls that raised. *)
Theorem retry_first_success (n k : nat) (s s' : S) (a : A) :
  calls func n s !! k = Some (Return a, s') ->
  forallb is_throw (take k (calls func n s)) = true ->
  retry func (Z.of_nat n) s
  = (Return a, s', logged (take k (calls func n s)))
  /\ length (logged (take k (calls func n s))) = k.
Proof.
  intros Hk Hthrow. unfold retry. rewrite Nat2Z.id. split.
  - now rewrite (retry_loop_success n k None s s' [] a Hk Hthrow).
  - assert (Hlen : length (take k (calls func n s)) = k).
    { apply lookup_lt_Some in Hk. rewrite length_take. lia. }
    revert Hthrow Hlen. generalize (take k (calls func n s)). clear.
    intros l. revert k. induction l as [|[[a | e] s] l IH]; intros k;
      cbn; try discriminate; intros Hl <-; [reflexivity |].
    f_equal. now apply IH.
Qed.

(** When all [num] calls raise, the wrapper raises the exception of the
    last call, after having logged every one of them; when [num] is zero
    or less it calls nothing and raises a [TypeError]. *)
Theorem retry_exhausted (num : Z) (s : S) :
  forallb is_throw (calls func (Z.to_nat num) s) = true ->
  (forall e s',
      last (calls func (Z.to_nat num) s) = Some (Throw e, s') ->
      retry func num s
      = (Throw (Reraised e), s', logged (calls func (Z.to_nat num) s)))
  /\ ((num <= 0)%Z ->
      retry func num s
      = (Throw (TypeError "exceptions must derive from BaseException"),
         s, [])).
Proof.
  intros Hthrow. unfold retry.
  rewrite (retry_loop_exhausted _ None s [] Hthrow). split.
  - intros e s' ->. reflexivity.
  - intros Hnum. replace (Z.to_nat num) with 0%nat by lia. reflexivity.
Qed.

End RetryFacts.

(** A function that returns its state when it has reached 2 and otherwise
    raises it and adds one. *)
Lemma retry_first_success_witness :
  Utils.retry (E := Z)
    (fun s : Z => if (s =? 2)%Z then (Return s, s)
                  else (Throw s, (s + 1)%Z)) 5 0%Z
  = (Return 2%Z, 2%Z, ["Retrying after: 0"; "Retrying after: 1"]).
Proof.
  refine (proj1 (retry_first_success (E := Z)
                   (fun s : Z => if (s =? 2)%Z then (Return s, s)
                                 else (Throw s, (s + 1)%Z))
                   5 2 0%Z 2%Z 2%Z _ _)); reflexivity.
Defined.

Lemma retry_exhausted_witness :
  Utils.retry (A := unit) (E := Z) (fun s : Z => (Throw s, (s + 1)%Z)) 2 0%Z
  = (Throw (Utils.Reraised 1%Z), 2%Z,
     ["Retrying after: 0"; "Retrying after: 1"])
  /\ Utils.retry (A := unit) (E := Z) (fun s : Z => (Throw s, (s + 1)%Z))
       (-1) 0%Z
     = (Throw (Utils.TypeError "exceptions must derive from BaseException"),
        0%Z, []).
Proof.
  split.
  - refine (proj1 (retry_exhausted (A := unit) (E := Z)
                     (fun s : Z => (Throw s, (s + 1)%Z)) 2 0%Z _)
              1%Z 2%Z _); reflexivity.
  - refine (proj2 (retry_exhausted (A := unit) (E := Z)
                     (fun s : Z => (Throw s, (s + 1)%Z)) (-1) 0%Z _) _);
      [reflexivity | lia].
Defined.

(** ** [chdir] *)

Section ChdirFacts.

Context {World A E : Type}.
Variable getcwd : World -> string.
Variable os_chdir : string -> World -> option World.

(** After a successful [os.chdir] to a directory given as [os.getcwd]
    gave it, [os.getcwd] gives this directory. *)
Hypothesis chdir_getcwd :
  forall w0 w w', os_chdir (getcwd w0) w = Some w' -> getcwd w' = getcwd w0.

Import Utils.

(** [chdir] leaves the working directory as it found it, also when the
    body raises or changes the directory itself, provided the directory
    can be entered again: the body runs in the world [os.chdir] made, its
    result or exception comes out unchanged, and the directory is that of
    before.  When the directory given cannot be entered the body does not
    run and nothing is changed; with [None] the body runs as it is. *)
Theorem chdir_restores (path : string) (body : World -> res E A * World)
    (w : World) :
  (forall w1 r w2 w3,
      os_chdir path w = Some w1 ->
      body w1 = (r, w2) ->
      os_chdir (getcwd w) w2 = Some w3 ->
      with_chdir getcwd os_chdir (Some path) body w
      = (match r with
         | Return a => Return a
         | Throw e => Throw (FromBody e)
         end, w3)
      /\ getcwd w3 = getcwd w)
  /\ (os_chdir path w = None ->
      with_chdir getcwd os_chdir (Some path) body w = (Throw OSError, w))
  /\ snd (with_chdir getcwd os_chdir None body w) = snd (body w).
Proof.
  split; [| split].
  - intros w1 r w2 w3 Henter Hbody Hexit. split.
    + unfold with_chdir. rewrite Henter, Hbody, Hexit. now destruct r.
    + now apply (chdir_getcwd w w2).
  - intros Henter. unfold with_chdir. now rewrite Henter.
  - unfold with_chdir. now destruct (body w) as [[a | e] w'].
Qed.

End ChdirFacts.

(** A world that is its working directory, where every directory can be
    entered; the body moves elsewhere and raises. *)
Lemma chdir_restores_witness :
  Utils.with_chdir (A := unit) (E := string) (fun w : string => w)
    (fun d _ => Some d) (Some "/tmp")
    (fun w => (Throw "failed", w +:+ "/sub")) "/home"
  = (Throw (Utils.FromBody "failed"), "/home").
Proof.
  refine (proj1 (proj1 (chdir_restores (A := unit) (E := string)
                          (fun w : string => w) (fun d _ => Some d) _
                          "/tmp" (fun w => (Throw "failed", w +:+ "/sub"))
                          "/home")
                   "/tmp" (Throw "failed") "/tmp/sub" "/home" _ _ _));
    try reflexivity.
  intros w0 w w' [= <-]. reflexivity.
Defined.

(** ** Matching the addresses *)

Lemma length_append (a b : string) :
  String.length (a +:+ b) = (String.length a + String.length b)%nat.
Proof. induction a as [|x a IH]; cbn; [reflexivity | now rewrite IH]. Qed.

Lemma no_newline_append (a b : string) :
  Re.no_newline (a +:+ b) = Re.no_newline a && Re.no_newline b.
Proof.
  induction a as [|x a IH]; [reflexivity |].
  cbn [String.append Re.no_newline]. now rewrite IH, andb_assoc.
Qed.

Lemma strip_prefix_Some (p s s' : string) :
  Re.strip_prefix p s = Some s' <-> s = p +:+ s'.
Proof.
  revert s. induction p as [|a p IH]; intros s; cbn.
  - split; [now intros [= ->] | now intros ->].
  - destruct s as [|b s]; [split; discriminate |].
    destruct (Ascii.eqb_spec a b) as [-> | Hne].
    + rewrite IH. split; [now intros -> | now intros [= ->]].
    + split; [discriminate | intros [= Hab _]; congruence].
Qed.

Lemma strip_prefix_append (p s : string) :
  Re.strip_prefix p (p +:+ s) = Some s.
Proof. now apply strip_prefix_Some. Qed.

Lemma at_end_cases (s : string) :
  Re.at_end s = true <-> s = "" \/ s = Py.nl.
Proof.
  unfold Re.at_end. rewrite orb_true_iff, !String.eqb_eq. tauto.
Qed.

Section Group.

Variable rest : list Re.item.

Lemma matcher_group (s : string) :
  Re.matcher (Re.Group :: rest) s
  = let stop := option_map (cons "") (Re.matcher rest s) in
    match s with
    | EmptyString => stop
    | String c s' =>
        if Ascii.eqb c Py.newline then stop
        else
          match Re.matcher (Re.Group :: rest) s' with
          | Some (g :: gs) => Some (String c g :: gs)
          | _ => stop
          end
    end.
Proof. destruct s; reflexivity. Qed.

Lemma group_stop (s : string) (gs : list string) :
  option_map (cons "") (Re.matcher rest s) = Some gs ->
  exists g gs' s',
    gs = g :: gs' /\ s = g +:+ s' /\ Re.no_newline g = true
    /\ Re.matcher rest s' = Some gs'.
Proof.
  destruct (Re.matcher rest s) as [gs'|] eqn:Hrest; [| discriminate].
  intros [= <-]. now exists "", gs', s.
Qed.

(** What a group followed by [rest] returns is a split of the string:
    the group, without newline, and a remainder matched by [rest]. *)
Lemma group_split (s : string) (gs : list string) :
  Re.matcher (Re.Group :: rest) s = Some gs ->
  exists g gs' s',
    gs = g :: gs' /\ s = g +:+ s' /\ Re.no_newline g = true
    /\ Re.matcher rest s' = Some gs'.
Proof.
  revert gs. induction s as [|c s IH]; intros gs; rewrite matcher_group;
    cbv zeta; [apply group_stop |].
  destruct (Ascii.eqb_spec c Py.newline) as [-> | Hc]; [apply group_stop |].
  destruct (Re.matcher (Re.Group :: rest) s) as [[|g gs0]|] eqn:Hgreedy;
    try apply group_stop.
  intros [= <-].
  destruct (IH _ eq_refl) as (g' & gs' & s' & [= <- <-] & -> & Hg & Hrest).
  exists (String c g), gs0, s'. repeat split; [| exact Hrest].
  cbn [Re.no_newline]. rewrite Hg.
  now apply Ascii.eqb_neq in Hc as ->.
Qed.

(** A group is greedy: it takes at least as much as any split of the
    string that lets [rest] match. *)
Lemma group_longest (p s' : string) (gs' : list string) :
  Re.no_newline p = true ->
  Re.matcher rest s' = Some gs' ->
  exists g gs,
    Re.matcher (Re.Group :: rest) (p +:+ s') = Some (g :: gs)
    /\ (String.length p <= String.length g)%nat.
Proof.
  intros Hp Hrest. induction p as [|c p IH].
  - cbn [String.append]. rewrite matcher_group, Hrest. cbv zeta.
    cbn [option_map]. cbn [String.length].
    destruct s' as [|c s'];
      [| destruct (Ascii.eqb c Py.newline);
         [| destruct (Re.matcher (Re.Group :: rest) s') as [[|g gs]|]]];
      eexists _, _; (split; [reflexivity | lia]).
  - cbn [Re.no_newline] in Hp. apply andb_true_iff in Hp as [Hc Hp].
    destruct (IH Hp) as (g & gs & Hgreedy & Hlen).
    cbn [String.append]. rewrite matcher_group. cbv zeta.
    apply negb_true_iff in Hc. rewrite Hc, Hgreedy.
    exists (String c g), gs. split; [reflexivity | cbn; lia].
Qed.

End Group.

(** The text a match stands for is the string matched, up to what
    follows the pattern; no group holds a newline; after a final [$]
    nothing follows but at most one newline. *)
Lemma matcher_sound (items : list Re.item) (s : string) (gs : list string) :
  Re.matcher items s = Some gs ->
  exists tail,
    s = Re.fill items gs +:+ tail
    /\ Forall (fun g => Re.no_newline g = true) gs
    /\ (last items = Some Re.Dollar -> tail = "" \/ tail = Py.nl).
Proof.
  revert s gs. induction items as [|[l | |] items IH]; intros s gs.
  - intros [= <-]. exists s. repeat split; [constructor | discriminate].
  - cbn [Re.matcher].
    destruct (Re.strip_prefix l s) as [s'|] eqn:Hl; [| discriminate].
    apply strip_prefix_Some in Hl as ->.
    intros (tail & -> & Hgs & Htail)%IH.
    exists tail. cbn [Re.fill]. rewrite append_assoc.
    repeat split; [exact Hgs |].
    intros Hlast. apply Htail. now destruct items.
  - intros (g & gs' & s' & -> & -> & Hg & Hrest)%group_split.
    apply IH in Hrest as (tail & -> & Hgs & Htail).
    exists tail. cbn [Re.fill]. rewrite append_assoc.
    repeat split; [now constructor |].
    intros Hlast. apply Htail. now destruct items.
  - cbn [Re.matcher]. destruct (Re.at_end s) eqn:Hend; [| discriminate].
    intros Hrest. pose proof Hrest as (tail & Hs & Hgs & Htail)%IH.
    exists tail. cbn [Re.fill]. repeat split; [exact Hs | exact Hgs |].
    intros Hlast. apply at_end_cases in Hend.
    destruct items as [|i items]; [| now apply Htail].
    cbn in Hrest. injection Hrest as <-. cbn in Hs. now subst tail.
Qed.

Lemma contains_length (needle text : string) :
  contains needle text -> (String.length needle <= String.length text)%nat.
Proof. intros (b & a & ->). rewrite !length_append. lia. Qed.

Lemma matcher_lit (l : string) (rest : list Re.item) (s : string) :
  Re.matcher (Re.Lit l :: rest) (l +:+ s) = Re.matcher rest s.
Proof. cbn [Re.matcher]. now rewrite strip_prefix_append. Qed.

Lemma matcher_lit_inv (l : string) (rest : list Re.item) (s : string)
    (gs : list string) :
  Re.matcher (Re.Lit l :: rest) s = Some gs ->
  exists s', s = l +:+ s' /\ Re.matcher rest s' = Some gs.
Proof.
  cbn [Re.matcher].
  destruct (Re.strip_prefix l s) as [s'|] eqn:Hl; [| discriminate].
  apply strip_prefix_Some in Hl. eauto.
Qed.

Lemma group_maximal (rest : list Re.item) (s g p s' : string)
    (gs : list string) :
  Re.matcher (Re.Group :: rest) s = Some (g :: gs) ->
  s = p +:+ s' -> Re.no_newline p = true ->
  is_Some (Re.matcher rest s') ->
  (String.length p <= String.length g)%nat.
Proof.
  intros Hs -> Hp [gs' Hrest].
  destruct (group_longest rest p s' gs' Hp Hrest) as (g' & gs0 & Hg & Hlen).
  rewrite Hg in Hs. now injection Hs as <- _.
Qed.

Lemma matcher_dollar_tail (tail : string) :
  tail = "" \/ tail = Py.nl -> Re.matcher [Re.Dollar] tail = Some [].
Proof. now intros [-> | ->]. Qed.

(** ** The addresses of the blob store *)

(** What [_split_url] returns are the parts of the address it was given:
    put back between [abs://], the host name, a slash and a question
    mark, they give the address, up to a newline at its end; no part
    holds a newline.  What it raises otherwise names the address. *)
Theorem abs_split_url_parts (url : string) :
  match AzureBlobStore._split_url url with
  | Return r =>
      exists tail,
        url = "abs://" +:+ AzureBlobStore.account r
              +:+ ".blob.core.windows.net/"
              +:+ AzureBlobStore.container r +:+ "/"
              +:+ AzureBlobStore.blob r +:+ "?"
              +:+ AzureBlobStore.sas_token r +:+ tail
        /\ (tail = "" \/ tail = Py.nl)
        /\ Forall (fun g => Re.no_newline g = true)
             [AzureBlobStore.account r; AzureBlobStore.container r;
              AzureBlobStore.blob r; AzureBlobStore.sas_token r]
  | Throw e => e = Exception_ ("Invalid azure blob url '" +:+ url +:+ "'")
  end.
Proof.
  unfold AzureBlobStore._split_url.
  destruct (Re.matcher AzureBlobStore.pattern url)
    as [[|g1 [|g2 [|g3 [|g4 [|]]]]]|] eqn:Hm; try reflexivity.
  apply matcher_sound in Hm as (tail & -> & Hgs & Htail).
  exists tail. cbn [AzureBlobStore.account AzureBlobStore.container
                      AzureBlobStore.blob AzureBlobStore.sas_token].
  repeat split; [| now apply Htail | exact Hgs].
  cbn [Re.fill AzureBlobStore.pattern].
  now rewrite !append_assoc.
Qed.

Lemma abs_decompose (url g1 g2 g3 g4 : string) :
  Re.matcher AzureBlobStore.pattern url = Some [g1; g2; g3; g4] ->
  exists tail,
    (tail = "" \/ tail = Py.nl)
    /\ Re.no_newline g2 = true /\ Re.no_newline g3 = true
    /\ Re.no_newline g4 = true
    /\ Re.matcher [Re.Group; Re.Lit "?"; Re.Group; Re.Dollar]
         (g3 +:+ "?" +:+ g4 +:+ tail) = Some [g3; g4]
    /\ Re.matcher
         [Re.Group; Re.Lit "/"; Re.Group; Re.Lit "?"; Re.Group; Re.Dollar]
         (g2 +:+ "/" +:+ g3 +:+ "?" +:+ g4 +:+ tail) = Some [g2; g3; g4].
Proof.
  unfold AzureBlobStore.pattern.
  intros (s1 & -> & H1)%matcher_lit_inv.
  apply group_split in H1 as (? & ? & s1' & [= <- <-] & -> & _ & H1).
  apply matcher_lit_inv in H1 as (s2 & -> & H2).
  pose proof H2 as (? & ? & s2' & [= <- <-] & -> & Hg2 & H2')%group_split.
  apply matcher_lit_inv in H2' as (s3 & -> & H3).
  pose proof H3 as (? & ? & s3' & [= <- <-] & -> & Hg3 & H3')%group_split.
  apply matcher_lit_inv in H3' as (s4 & -> & H4).
  pose proof H4 as (? & ? & tail & [= <- <-] & -> & Hg4 & H4')%group_split.
  exists tail. repeat split; try assumption.
  cbn [Re.matcher] in H4'. destruct (Re.at_end tail) eqn:Hend;
    [| discriminate].
  now apply at_end_cases.
Qed.

(** The groups are greedy, so the last slash before the blob name and
    the last question mark decide the split: the blob name returned
    holds no slash and the token returned holds no question mark. *)
Theorem abs_split_url_greedy (url : string) (r : AzureBlobStore.params) :
  AzureBlobStore._split_url url = Return r ->
  ~ contains "/" (AzureBlobStore.blob r)
  /\ ~ contains "?" (AzureBlobStore.sas_token r).
Proof.
  unfold AzureBlobStore._split_url.
  destruct (Re.matcher AzureBlobStore.pattern url)
    as [[|g1 [|g2 [|g3 [|g4 [|]]]]]|] eqn:Hm; try discriminate.
  intros [= <-].
  cbn [AzureBlobStore.blob AzureBlobStore.sas_token].
  apply abs_decompose in Hm
    as (tail & Htail & Hg2 & Hg3 & Hg4 & Hm3 & Hm2).
  pose proof (matcher_dollar_tail tail Htail) as Hdollar.
  split.
  - intros (x & y & ->).
    rewrite !no_newline_append in Hg3.
    apply andb_true_iff in Hg3 as [Hx [_ Hy]%andb_true_iff].
    destruct (group_longest [Re.Dollar] g4 tail [] Hg4 Hdollar)
      as (g & gs & Hg & _).
    destruct (group_longest [Re.Lit "?"; Re.Group; Re.Dollar] y
                ("?" +:+ g4 +:+ tail) (g :: gs) Hy) as (g' & gs' & Hy' & _).
    { now rewrite matcher_lit. }
    assert (Hlen : (String.length (g2 +:+ "/" +:+ x) <= String.length g2)%nat).
    { eapply (group_maximal _ _ _ _ ("/" +:+ y +:+ "?" +:+ g4 +:+ tail));
        [exact Hm2 | now rewrite !append_assoc | |].
      - rewrite !no_newline_append, Hg2, Hx. reflexivity.
      - rewrite matcher_lit, Hy'. eauto. }
    rewrite !length_append in Hlen. cbn in Hlen. lia.
  - intros (x & y & ->).
    rewrite !no_newline_append in Hg4.
    apply andb_true_iff in Hg4 as [Hx [_ Hy]%andb_true_iff].
    assert (Hlen : (String.length (g3 +:+ "?" +:+ x) <= String.length g3)%nat).
    { eapply (group_maximal _ _ _ _ ("?" +:+ y +:+ tail));
        [exact Hm3 | now rewrite !append_assoc | |].
      - rewrite !no_newline_append, Hg3, Hx. reflexivity.
      - rewrite matcher_lit.
        destruct (group_longest [Re.Dollar] y tail [] Hy Hdollar)
          as (g & gs & -> & _). eauto. }
    rewrite !length_append in Hlen. cbn in Hlen. lia.
Qed.

Lemma abs_split_url_greedy_witness :
  ~ contains "/" "b.txt?x" /\ ~ contains "?" "y".
Proof.
  exact (abs_split_url_greedy "abs://a.blob.core.windows.net/c/d/b.txt?x?y"
           {| AzureBlobStore.account := "a";
              AzureBlobStore.container := "c/d";
              AzureBlobStore.blob := "b.txt?x";
              AzureBlobStore.sas_token := "y" |} eq_refl).
Defined.

(** ** The addresses of the data lake *)

Lemma adl_split_url_return (url store_name path : string) :
  ADL._split_url url = Return (store_name, path) ->
  exists tail,
    url = "adl://" +:+ store_name +:+ ".azuredatalakestore.net/"
          +:+ path +:+ tail
    /\ (tail = "" \/ tail = Py.nl)
    /\ Re.no_newline store_name = true /\ Re.no_newline path = true.
Proof.
  unfold ADL._split_url.
  destruct (Re.matcher ADL.pattern url) as [[|g1 [|g2 [|]]]|] eqn:Hm;
    try discriminate.
  intros [= <- <-].
  apply matcher_sound in Hm as (tail & -> & Hgs & Htail).
  exists tail. repeat split; [| now apply Htail | |].
  - cbn [Re.fill ADL.pattern]. now rewrite !append_assoc.
  - now inversion Hgs.
  - inversion Hgs as [|? ? _ Hgs']. now inversion Hgs'.
Qed.

(** What [_split_url] returns are the store name and the path of the
    address it was given: put back between [adl://] and the host name
    they give the address, up to a newline at its end; neither holds a
    newline.  What it raises otherwise names the address. *)
Theorem adl_split_url_parts (url : string) :
  match ADL._split_url url with
  | Return (store_name, path) =>
      exists tail,
        url = "adl://" +:+ store_name +:+ ".azuredatalakestore.net/"
              +:+ path +:+ tail
        /\ (tail = "" \/ tail = Py.nl)
        /\ Re.no_newline store_name = true /\ Re.no_newline path = true
  | Throw e => e = Exception_ ("Invalid ADL url '" +:+ url +:+ "'")
  end.
Proof.
  destruct (ADL._split_url url) as [[store_name path] | e] eqn:Hsplit.
  - now apply adl_split_url_return.
  - unfold ADL._split_url in Hsplit.
    destruct (Re.matcher ADL.pattern url) as [[|g1 [|g2 [|]]]|];
      congruence.
Qed.

Lemma adl_address_accepted (store_name child : string) :
  Re.no_newline store_name = true -> Re.no_newline child = true ->
  exists store_name' path',
    ADL._split_url
      ("adl://" +:+ store_name +:+ ".azuredatalakestore.net/" +:+ child)
    = Return (store_name', path')
    /\ "adl://" +:+ store_name' +:+ ".azuredatalakestore.net/" +:+ path'
       = "adl://" +:+ store_name +:+ ".azuredatalakestore.net/" +:+ child.
Proof.
  intros Hstore Hchild.
  set (url := "adl://" +:+ store_name +:+ ".azuredatalakestore.net/"
              +:+ child).
  assert (Hurl : Re.no_newline url = true).
  { unfold url. rewrite !no_newline_append, Hstore, Hchild. reflexivity. }
  assert (Hm : exists g1 g2, Re.matcher ADL.pattern url = Some [g1; g2]).
  { unfold url, ADL.pattern. rewrite matcher_lit.
    destruct (group_longest [Re.Dollar] child "" [] Hchild eq_refl)
      as (g & gs & Hg & _).
    rewrite append_empty_r in Hg.
    destruct (group_longest
                [Re.Lit ".azuredatalakestore.net/"; Re.Group; Re.Dollar]
                store_name (".azuredatalakestore.net/" +:+ child) (g :: gs)
                Hstore) as (g1 & gs1 & Hm & _);
      [now rewrite matcher_lit |].
    rewrite Hm. exists g1.
    apply group_split in Hm as (? & ? & s1 & [= <- <-] & _ & _ & Hm).
    apply matcher_lit_inv in Hm as (s2 & _ & Hm).
    apply group_split in Hm as (g2 & gs2 & s3 & -> & _ & _ & Hm).
    cbn [Re.matcher] in Hm. destruct (Re.at_end s3); [| discriminate].
    injection Hm as <-. now exists g2. }
  destruct Hm as (g1 & g2 & Hm).
  assert (Hsplit : ADL._split_url url = Return (g1, g2))
    by (unfold ADL._split_url; now rewrite Hm).
  destruct (adl_split_url_return _ _ _ Hsplit)
    as (tail & Heq & [-> | ->] & _).
  - exists g1, g2. split; [exact Hsplit |].
    rewrite append_empty_r in Heq. symmetry. exact Heq.
  - exfalso. rewrite Heq in Hurl.
    rewrite !no_newline_append in Hurl.
    do 4 (apply andb_true_iff in Hurl as [_ Hurl]).
    discriminate Hurl.
Qed.

(** The addresses [listdir] returns can be given back to [listdir],
    [read] and [write]: as long as the adapter lists names without
    newlines, [_split_url] accepts every one of them, with parts that
    give the address again.  A [listdir] that returned has got a token. *)
Theorem adl_listdir_addresses {T : Type} (auth : T)
    (ls : T -> string -> string -> list string) (self self' : ADL.state)
    (url : string) (addresses : list string) :
  (forall tok store_name path,
      Forall (fun child => Re.no_newline child = true)
        (ls tok store_name path)) ->
  ADL.listdir auth ls self url = (Return addresses, self') ->
  Forall (fun address =>
            exists store_name path,
              ADL._split_url address = Return (store_name, path)
              /\ address = "adl://" +:+ store_name
                           +:+ ".azuredatalakestore.net/" +:+ path)
    addresses
  /\ is_Some (ADL.token self').
Proof.
  intros Hls. unfold ADL.listdir.
  destruct (ADL._split_url url) as [[store_name path] | e] eqn:Hsplit;
    [| discriminate].
  destruct (adl_split_url_return _ _ _ Hsplit) as (_ & _ & _ & Hstore & _).
  destruct (ADL._get_token auth self) as [tok self1] eqn:Htok.
  intros [= <- <-]. split.
  - apply List.Forall_forall. intros address Hin.
    apply List.in_map_iff in Hin as (child & <- & Hin).
    specialize (Hls tok store_name path).
    rewrite List.Forall_forall in Hls.
    destruct (adl_address_accepted store_name child Hstore (Hls _ Hin))
      as (store' & path' & Hchild & Heq).
    now exists store', path'.
  - unfold ADL._get_token in Htok.
    destruct (ADL.token self) as [t|] eqn:Hself;
      injection Htok as <- <-; [now rewrite Hself | now eexists].
Qed.

Lemma adl_listdir_addresses_witness :
  exists store_name path,
    ADL._split_url "adl://lake.azuredatalakestore.net/dir/a.ipynb"
    = Return (store_name, path).
Proof.
  pose proof (adl_listdir_addresses (T := nat) 7
                (fun _ _ _ => ["dir/a.ipynb"; "dir/b.ipynb"])
                ADL.__init__ {| ADL.token := Some 7 |}
                "adl://lake.azuredatalakestore.net/dir"
                ["adl://lake.azuredatalakestore.net/dir/a.ipynb";
                 "adl://lake.azuredatalakestore.net/dir/b.ipynb"]) as Hw.
  destruct Hw as [Hall _].
  - intros tok store_name path. repeat constructor.
  - reflexivity.
  - inversion Hall as [|? ? (store_name & path & Hsplit & _) _].
    now exists store_name, path.
Defined.

(** Once a token has been got, [_get_token] returns it again and asks
    for no other, whatever authentication would answer by then. *)
Theorem adl_get_token_once {T : Type} (auth again : T) (self : ADL.state) :
  ADL._get_token again (snd (ADL._get_token auth self))
  = ADL._get_token auth self
  /\ ADL.token (snd (ADL._get_token auth self))
     = Some (fst (ADL._get_token auth self)).
Proof.
  unfold ADL._get_token.
  destruct (ADL.token self) as [t|] eqn:Hself; cbn; [now rewrite Hself |].
  split; reflexivity.
Qed.
